(** * OmniMind API backend: a shallow embedding of [src/api/src/main.py]

    The handlers of the FastAPI backend are sequential glue over three
    stores (PostgreSQL, ChromaDB, Redis) and an embedding model.  The
    embedding below keeps that shape:

    - [Py]        the Python string operations the annotator uses;
    - [Annotator] [generate_tags_and_summary];
    - [Pg]        the two tables and the statements the handlers execute;
    - [Chroma], [Redis]  the collection and the cache;
    - [Api]       the handlers, written in a state-and-exception monad
                  that also records every call issued to a store, over
                  the connection's transaction (commit / rollback);
    - [Spec]      the vocabulary of the statements;
    - [Scenario]  the concrete requests of the examples;
    - [Stats]     [get_stats];
    - [Logic]     the declared constraints as an invariant, and a small
                  program logic for the handlers.

    Modelling conventions.
    - Python [str] is modelled by [string]; the model covers ASCII text
      (the case mappings and the whitespace class are the ASCII ones).
    - Python [float] is modelled by exact rationals [Q]; rounding is not
      modelled.  Every number in a concrete example is a dyadic rational
      that binary64 represents exactly, and on those [1 - d] is exact.
    - Timestamps are integers (microseconds); [isoformat] is not rendered.
    - The columns the schema leaves nullable are options.  Building a
      [Document] from a row raises on a NULL [created_at] (no
      [isoformat]) and on a NULL [mime_type] (field validation).
    - A SELECT with ORDER BY is a stable sort.  The search SELECT has no
      ORDER BY: its rows are taken in the order of the primary key, as
      the grouping on [d.id] yields them, never in the order of the ids
      passed in.  The order inside [array_agg] is left open by the query,
      and no statement relies on it.
    - Whatever an external service decides (does a call raise, which ids
      and distances does the index return, the uuid, the clocks) is read
      from an environment record, so that the theorems quantify over it. *)

From Stdlib Require Import Ascii String QArith Lqa.
From stdpp Require Import gmap strings list sorting.

Local Open Scope string_scope.
Local Open Scope list_scope.
Local Open Scope nat_scope.

(** ** Python string operations *)

Module Py.

Definition code (c : ascii) : N := N_of_ascii c.

Definition between (lo hi : N) (c : ascii) : bool :=
  ((lo <=? code c) && (code c <=? hi))%N.

(** [str.isspace] on ASCII: TAB..CR, FS..US and the space. *)
Definition isspace (c : ascii) : bool :=
  between 9 13 c || between 28 32 c.

Definition lower_char (c : ascii) : ascii :=
  if between 65 90 c then ascii_of_N (code c + 32) else c.

Definition upper_char (c : ascii) : ascii :=
  if between 97 122 c then ascii_of_N (code c - 32) else c.

Fixpoint map_chars (f : ascii → ascii) (s : string) : string :=
  match s with
  | EmptyString => EmptyString
  | String c s' => String (f c) (map_chars f s')
  end.

(** [s.lower()] and [s.upper()] *)
Definition lower : string → string := map_chars lower_char.
Definition upper : string → string := map_chars upper_char.

(** [len(s)] *)
Definition len : string → nat := String.length.

(** [s[:n]] *)
Fixpoint slice_to (n : nat) (s : string) : string :=
  match n, s with
  | S n', String c s' => String c (slice_to n' s')
  | _, _ => EmptyString
  end.

(** [s.startswith(p)] *)
Definition startswith (s p : string) : bool := String.prefix p s.

Definition flush (word : list ascii) : list string :=
  match word with
  | [] => []
  | _ => [string_of_list_ascii (reverse word)]
  end.

(** [s.split()]: the maximal runs of non-whitespace characters.  [word]
    holds the current run, last character first. *)
Fixpoint split_ws_from (word : list ascii) (s : string) : list string :=
  match s with
  | EmptyString => flush word
  | String c s' =>
      if isspace c then flush word ++ split_ws_from [] s'
      else split_ws_from (c :: word) s'
  end.

Definition split : string → list string := split_ws_from [].

(** [s.split(sep)] for a one-character separator: the fields between
    the separators, empty fields included; never the empty list. *)
Fixpoint split_on_from (sep : ascii) (field : list ascii) (s : string)
  : list string :=
  match s with
  | EmptyString => [string_of_list_ascii (reverse field)]
  | String c s' =>
      if Ascii.eqb c sep
      then string_of_list_ascii (reverse field) :: split_on_from sep [] s'
      else split_on_from sep (c :: field) s'
  end.

Definition split_on (sep : ascii) : string → list string :=
  split_on_from sep [].

(** [l[-1]]; [None] stands for the IndexError on an empty list. *)
Definition last_item {A} (l : list A) : option A := last l.

(** [list(set(l))]: the distinct elements of [l] in an order the
    language does not specify; here the order of [elements]. *)
Definition list_of_set (l : list string) : list string :=
  elements (list_to_set l : gset string).

(** [x or y] on lists *)
Definition or_list {A} (x y : list A) : list A :=
  match x with [] => y | _ => x end.

End Py.

(** ** The annotator *)

Module Annotator.

Record AiData := mkAiData { tags : list string; summary : string }.

Definition common_words : list string :=
  ["the"; "and"; "or"; "but"; "in"; "on"; "at"; "to"; "for"; "of"; "a"; "an"].

Definition is_common (w : string) : bool :=
  bool_decide (w ∈ common_words).

(** [mime_type.startswith("text/") or mime_type == "application/json"] *)
Definition is_textual (mime_type : string) : bool :=
  Py.startswith mime_type "text/" || String.eqb mime_type "application/json".

(** [[w for w in words if w not in common_words and len(w) > 3][:5]] *)
Definition keywords_of (words : list string) : list string :=
  take 5 (List.filter (λ w, negb (is_common w) && (3 <? Py.len w)) words).

Definition file_type_of (mime_type : string) : string :=
  Py.upper (default "" (Py.last_item (Py.split_on "/" mime_type))).

Definition generate_tags_and_summary (content mime_type : string) : AiData :=
  if is_textual mime_type then
    let words := take 100 (Py.split (Py.lower content)) in
    let keywords := keywords_of words in
    let tags := Py.or_list (take 5 (Py.list_of_set keywords))
                           ["document"; "text"; "file"] in
    let summary :=
      if 200 <? Py.len content then Py.slice_to 200 content +:+ "..."
      else content in
    mkAiData tags summary
  else
    let file_type := file_type_of mime_type in
    mkAiData [file_type; "media"; "file"]
             (file_type +:+ " file uploaded to OmniMind").

End Annotator.

(** ** The relational store

    The two tables created by [init_database], the statements the
    handlers execute against them, and what those statements return. *)

Module Pg.

(** A row of [documents].  Only [id] and [filename] are declared NOT
    NULL; [None] is the NULL of the other columns. *)
Record DocRow := mkDocRow {
  id : string;
  filename : string;
  content : option string;
  mime_type : option string;
  created_at : option Z;
  metadata : option Annotator.AiData
}.

(** A row of [tags] (the serial key plays no role and is left out). *)
Record TagRow := mkTagRow { doc_id : string; tag : string }.

#[global] Instance TagRow_eq_dec : EqDecision TagRow.
Proof. solve_decision. Defined.

(** Rows are kept in insertion order. *)
Record Tables := mkTables { documents : list DocRow; tags : list TagRow }.

Definition empty : Tables := mkTables [] [].

Definition has_document (t : Tables) (i : string) : bool :=
  bool_decide (i ∈ id <$> documents t).

(** [INSERT INTO documents ...]; [None] is the primary-key violation. *)
Definition insert_document (r : DocRow) (t : Tables) : option Tables :=
  if has_document t (id r) then None
  else Some (mkTables (documents t ++ [r]) (tags t)).

(** [INSERT INTO tags ...]; [None] is a violation of the foreign key
    or of UNIQUE(doc_id, tag). *)
Definition insert_tag (r : TagRow) (t : Tables) : option Tables :=
  if has_document t (doc_id r) && negb (bool_decide (r ∈ tags t))
  then Some (mkTables (documents t) (tags t ++ [r]))
  else None.

(** The number of rows [DELETE FROM documents WHERE id = i] affects. *)
Definition rowcount_delete (i : string) (t : Tables) : nat :=
  length (filter (λ r, id r = i) (documents t)).

(** [DELETE FROM documents WHERE id = i], with ON DELETE CASCADE. *)
Definition delete_document (i : string) (t : Tables) : Tables :=
  mkTables (filter (λ r, id r ≠ i) (documents t))
           (filter (λ r, doc_id r ≠ i) (tags t)).

(** [array_agg(t.tag)] over the LEFT JOIN group of document [i]: the
    tags of the document, or the single NULL of the unmatched row.  The
    query does not fix the order of the elements; they are listed here as
    they were inserted, and the statements below that mention the tags of
    a fetched row hold for any other order as well. *)
Definition array_agg (t : Tables) (i : string) : list (option string) :=
  match filter (λ r, doc_id r = i) (tags t) with
  | [] => [None]
  | rs => (λ r, Some (tag r)) <$> rs
  end.

Record Joined := mkJoined { row : DocRow; agg : list (option string) }.

(** [SELECT d.*, array_agg(t.tag) ... GROUP BY d.id] *)
Definition select_grouped (t : Tables) : list Joined :=
  (λ d, mkJoined d (array_agg t (id d))) <$> documents t.

(** The order of [created_at] values: NULL sorts as larger than any
    timestamp, so that it comes first under DESC. *)
Definition stamp_le (a b : option Z) : Prop :=
  match a, b with
  | _, None => True
  | None, Some _ => False
  | Some x, Some y => (x ≤ y)%Z
  end.

#[global] Instance stamp_le_dec : RelDecision stamp_le.
Proof. intros [x|] [y|]; cbn; apply _. Defined.

Definition newer (a b : Joined) : Prop :=
  stamp_le (created_at (row b)) (created_at (row a)).

#[global] Instance newer_dec : RelDecision newer.
Proof. intros a b. unfold newer. apply _. Defined.

(** [... ORDER BY d.created_at DESC] *)
Definition select_all (t : Tables) : list Joined :=
  merge_sort newer (select_grouped t).

Definition by_id (a b : Joined) : Prop := String.le (id (row a)) (id (row b)).

#[global] Instance by_id_dec : RelDecision by_id.
Proof. intros a b. unfold by_id. apply _. Defined.

(** [... WHERE d.id IN (ids) GROUP BY d.id].  The query has no ORDER BY;
    the rows come back as the grouping on the primary key produces them,
    in the order of [id], whatever the order of [ids]. *)
Definition select_in (ids : list string) (t : Tables) : list Joined :=
  merge_sort by_id (filter (λ j, id (row j) ∈ ids) (select_grouped t)).

End Pg.

(** ** The vector index and the cache *)

Module Chroma.

Record Entry := mkEntry {
  id : string;
  embedding : list Q;
  meta_filename : string;
  meta_mime_type : string;
  meta_tags : list string;
  document : string
}.

(** What [collection.query] returns for the single query embedding:
    [results["ids"][0]] and [results["distances"][0]]. *)
Record QueryResult := mkQueryResult { ids : list string; distances : list Q }.

Definition has_id (c : list Entry) (i : string) : bool :=
  bool_decide (i ∈ id <$> c).

(** [collection.add]: an id already present is left as it is. *)
Definition add (e : Entry) (c : list Entry) : list Entry :=
  if has_id c (id e) then c else c ++ [e].

(** [collection.delete(ids=[i])]: no error when [i] is absent. *)
Definition delete (i : string) (c : list Entry) : list Entry :=
  filter (λ e, id e ≠ i) c.

End Chroma.

Module Redis.

(** The value cached under ["document:<id>"], with its time to live. *)
Record Entry := mkEntry {
  ttl : nat;
  id : string;
  filename : string;
  tags : list string;
  summary : string
}.

End Redis.

(** ** The pydantic models *)

Module Document.
Record t := mk {
  id : string;
  filename : string;
  content : string;
  mime_type : string;
  created_at : Z;
  tags : list string;
  metadata : option Annotator.AiData;   (* [None] is the empty dict *)
  similarity : option Q
}.
End Document.

Module DocumentCreate.
Record t := mk { filename : string; content : string; mimeType : string }.
End DocumentCreate.

(** ** The handlers *)

Module Api.

(** Every call a handler issues to a store or to the model. *)
Inductive Call :=
  | PgInsertDocument (id : string)
  | PgInsertTag (doc_id tag : string)
  | PgDeleteDocument (id : string)
  | PgSelectAll
  | PgSelectIn (ids : list string)
  | PgCommit
  | PgRollback
  | ModelEncode (text : string)
  | ChromaAdd (id : string)
  | ChromaQuery
  | ChromaDelete (id : string)
  | RedisSetex (key : string)
  | RedisDelete (key : string).

#[global] Instance Call_eq_dec : EqDecision Call.
Proof. solve_decision. Defined.

(** What the surroundings decide during one request. *)
Record Env := mkEnv {
  uuid4 : string;
  current_timestamp : Z;        (* the database clock *)
  datetime_now : Z;             (* the process clock *)
  encode : string → list Q;     (* the sentence-transformers model *)
  query : list Chroma.Entry → list Q → nat → Chroma.QueryResult;
  raises : Call → option string (* [Some msg]: the call raises *)
}.

(** The global connections.  [session] is what the PostgreSQL
    connection sees inside its open transaction, [committed] what is
    durable; [calls] is the record of the calls issued so far. *)
Record World := mkWorld {
  committed : Pg.Tables;
  session : Pg.Tables;
  collection : list Chroma.Entry;
  cache : gmap string Redis.Entry;
  calls : list Call
}.

Definition with_session (t : Pg.Tables) (w : World) : World :=
  mkWorld (committed w) t (collection w) (cache w) (calls w).
Definition with_committed (t : Pg.Tables) (w : World) : World :=
  mkWorld t (session w) (collection w) (cache w) (calls w).
Definition with_collection (c : list Chroma.Entry) (w : World) : World :=
  mkWorld (committed w) (session w) c (cache w) (calls w).
Definition with_cache (c : gmap string Redis.Entry) (w : World) : World :=
  mkWorld (committed w) (session w) (collection w) c (calls w).
Definition with_call (c : Call) (w : World) : World :=
  mkWorld (committed w) (session w) (collection w) (cache w) (calls w ++ [c]).

Inductive Exc :=
  | PyExc (msg : string)
  | HTTPException (status_code : nat) (detail : string).

(** [str(e)] *)
Definition str (e : Exc) : string :=
  match e with PyExc msg => msg | HTTPException _ detail => detail end.

Inductive Result (A : Type) :=
  | Return (a : A)
  | Raise (e : Exc).
Arguments Return {A} a.
Arguments Raise {A} e.

(** State and exceptions: the effects made before a raise stay. *)
Definition M (A : Type) : Type := Env → World → World * Result A.

#[global] Instance M_ret : MRet M := λ A a _ w, (w, Return a).
#[global] Instance M_bind : MBind M := λ A B k m env w,
  match m env w with
  | (w', Return a) => k a env w'
  | (w', Raise e) => (w', Raise e)
  end.

Definition raise {A} (e : Exc) : M A := λ _ w, (w, Raise e).
Definition ask : M Env := λ env w, (w, Return env).
Definition get : M World := λ _ w, (w, Return w).
Definition modify (f : World → World) : M unit := λ _ w, (f w, Return tt).

(** [try: body except Exception as e: handler e] *)
Definition try_except {A} (body : M A) (handler : Exc → M A) : M A :=
  λ env w,
    match body env w with
    | (w', Return a) => (w', Return a)
    | (w', Raise e) => handler e env w'
    end.

(** Issue a call: it is recorded, then the surroundings may make it raise. *)
Definition call (c : Call) : M unit := λ env w,
  match raises env c with
  | Some msg => (with_call c w, Raise (PyExc msg))
  | None => (with_call c w, Return tt)
  end.

Fixpoint for_each {A} (l : list A) (f : A → M unit) : M unit :=
  match l with
  | [] => mret tt
  | x :: l' => f x ;; for_each l' f
  end.

(** [[f i x for i, x in enumerate(l)]], counting from [i]. *)
Fixpoint for_enumerate {A B} (i : nat) (l : list A) (f : nat → A → M B)
  : M (list B) :=
  match l with
  | [] => mret []
  | x :: l' => b ← f i x; bs ← for_enumerate (S i) l' f; mret (b :: bs)
  end.

(** *** The connections *)

Definition pg_insert_document (r : Pg.DocRow) : M unit :=
  call (PgInsertDocument (Pg.id r)) ;;
  w ← get;
  match Pg.insert_document r (session w) with
  | Some t => modify (with_session t)
  | None => raise (PyExc "duplicate key value violates unique constraint")
  end.

Definition pg_insert_tag (doc_id tag : string) : M unit :=
  call (PgInsertTag doc_id tag) ;;
  w ← get;
  match Pg.insert_tag (Pg.mkTagRow doc_id tag) (session w) with
  | Some t => modify (with_session t)
  | None => raise (PyExc "insert on table tags violates a constraint")
  end.

Definition pg_delete_document (doc_id : string) : M unit :=
  call (PgDeleteDocument doc_id) ;;
  modify (λ w, with_session (Pg.delete_document doc_id (session w)) w).

Definition pg_select_all : M (list Pg.Joined) :=
  call PgSelectAll ;;
  w ← get; mret (Pg.select_all (session w)).

Definition pg_select_in (ids : list string) : M (list Pg.Joined) :=
  call (PgSelectIn ids) ;;
  w ← get; mret (Pg.select_in ids (session w)).

(** [db_conn.commit()] *)
Definition pg_commit : M unit :=
  call PgCommit ;;
  modify (λ w, with_committed (session w) w).

(** [db_conn.rollback()] *)
Definition pg_rollback : M unit :=
  call PgRollback ;;
  modify (λ w, with_session (committed w) w).

(** [ai_model.encode(text).tolist()] *)
Definition model_encode (text : string) : M (list Q) :=
  call (ModelEncode text) ;;
  env ← ask; mret (encode env text).

Definition chroma_add (e : Chroma.Entry) : M unit :=
  call (ChromaAdd (Chroma.id e)) ;;
  modify (λ w, with_collection (Chroma.add e (collection w)) w).

Definition chroma_query (query_embedding : list Q) (n_results : nat)
  : M Chroma.QueryResult :=
  call ChromaQuery ;;
  env ← ask; w ← get;
  mret (query env (collection w) query_embedding n_results).

Definition chroma_delete (doc_id : string) : M unit :=
  call (ChromaDelete doc_id) ;;
  modify (λ w, with_collection (Chroma.delete doc_id (collection w)) w).

Definition redis_setex (key : string) (e : Redis.Entry) : M unit :=
  call (RedisSetex key) ;;
  modify (λ w, with_cache (<[key := e]> (cache w)) w).

Definition redis_delete (key : string) : M unit :=
  call (RedisDelete key) ;;
  modify (λ w, with_cache (delete key (cache w)) w).

(** *** The endpoints *)

(** [row["tags"] if row["tags"][0] else []]: the first element decides;
    NULL and the empty string are both falsy. *)
Definition tags_field (agg : list (option string)) : M (list string) :=
  match agg with
  | [] => raise (PyExc "list index out of range")
  | None :: _ => mret []
  | Some s :: _ => mret (if String.eqb s "" then [] else omap id agg)
  end.

(** [row["created_at"].isoformat()]: NULL has no such method. *)
Definition isoformat (created_at : option Z) : M Z :=
  match created_at with
  | Some t => mret t
  | None => raise (PyExc "'NoneType' object has no attribute 'isoformat'")
  end.

(** The validation of a field declared [str] when the model is built. *)
Definition validate_str (value : option string) : M string :=
  match value with
  | Some s => mret s
  | None => raise (PyExc "validation error for Document: str type expected")
  end.

(** [l[i]] *)
Definition item (l : list Q) (i : nat) : M Q :=
  match l !! i with
  | Some x => mret x
  | None => raise (PyExc "list index out of range")
  end.

(** The [Document(...)] built from a fetched row: the arguments are
    evaluated in the order in which they are written, then the model
    validates its fields.  [similarity] is the last argument. *)
Definition to_document (j : Pg.Joined) (similarity : M (option Q))
  : M Document.t :=
  let r := Pg.row j in
  created_at ← isoformat (Pg.created_at r);
  tags ← tags_field (Pg.agg j);
  similarity ← similarity;
  mime_type ← validate_str (Pg.mime_type r);
  mret (Document.mk (Pg.id r) (Pg.filename r) (default "" (Pg.content r))
          mime_type created_at tags (Pg.metadata r) similarity).

(** GET /api/documents (no try/except in this handler) *)
Definition get_documents : M (list Document.t) :=
  rows ← pg_select_all;
  for_enumerate 0 rows (λ _ row, to_document row (mret None)).

(** POST /api/documents *)
Definition create_document (document : DocumentCreate.t) : M Document.t :=
  let filename := DocumentCreate.filename document in
  let content := DocumentCreate.content document in
  let mimeType := DocumentCreate.mimeType document in
  env ← ask;
  let doc_id := uuid4 env in
  try_except
    (let ai_data := Annotator.generate_tags_and_summary content mimeType in
     pg_insert_document
       (Pg.mkDocRow doc_id filename (Some content) (Some mimeType)
          (Some (current_timestamp env)) (Some ai_data)) ;;
     for_each (Annotator.tags ai_data) (pg_insert_tag doc_id) ;;
     pg_commit ;;
     let text_to_embed :=
       if Py.startswith mimeType "text/" then content
       else Annotator.summary ai_data in
     embedding ← model_encode text_to_embed;
     chroma_add
       (Chroma.mkEntry doc_id embedding filename mimeType
          (Annotator.tags ai_data) (Py.slice_to 1000 text_to_embed)) ;;
     redis_setex ("document:" +:+ doc_id)
       (Redis.mkEntry 3600 doc_id filename (Annotator.tags ai_data)
          (Annotator.summary ai_data)) ;;
     mret (Document.mk doc_id filename content mimeType (datetime_now env)
             (Annotator.tags ai_data) (Some ai_data) None))
    (λ e,
       pg_rollback ;;
       raise (HTTPException 500 ("Failed to process document: " +:+ str e))).

(** POST /api/search *)
Definition search_documents (query : string) : M (list Document.t) :=
  try_except
    (query_embedding ← model_encode query;
     results ← chroma_query query_embedding 5;
     match Chroma.ids results with
     | [] => mret []
     | _ =>
         let doc_ids := Chroma.ids results in
         let similarities :=
           (λ distance, 1 - distance)%Q <$> Chroma.distances results in
         rows ← pg_select_in doc_ids;
         for_enumerate 0 rows (λ i row,
           to_document row (s ← item similarities i; mret (Some s)))
     end)
    (λ e, raise (HTTPException 500 ("Search failed: " +:+ str e))).

Record Success := mkSuccess { success : bool }.

(** DELETE /api/documents/{doc_id} *)
Definition delete_document (doc_id : string) : M Success :=
  try_except
    (pg_delete_document doc_id ;;
     pg_commit ;;
     chroma_delete doc_id ;;
     redis_delete ("document:" +:+ doc_id) ;;
     mret (mkSuccess true))
    (λ e,
       pg_rollback ;;
       raise (HTTPException 500 ("Failed to delete document: " +:+ str e))).

(** What the framework sends back: the returned body, the status and
    detail of an [HTTPException], or 500 for any other exception. *)
Inductive Response (A : Type) :=
  | Ok (body : A)
  | Error (status_code : nat) (detail : string).
Arguments Ok {A} body.
Arguments Error {A} status_code detail.

Definition serve {A} (handler : M A) (env : Env) (w : World)
  : World * Response A :=
  match handler env w with
  | (w', Return a) => (w', Ok a)
  | (w', Raise (HTTPException status_code detail)) =>
      (w', Error status_code detail)
  | (w', Raise (PyExc _)) => (w', Error 500 "Internal Server Error")
  end.

End Api.

(** ** Vocabulary of the statements *)

Module Spec.
Import Api.

(** No row of either table mentions [i]: what a new uuid meets in a
    store that respects its foreign key. *)
Definition fresh (t : Pg.Tables) (i : string) : Prop :=
  (i ∉ Pg.id <$> Pg.documents t) ∧ (i ∉ Pg.doc_id <$> Pg.tags t).




(** The calls a handler issues when it tries [plan] in order inside a
    try block whose handler rolls back: the first call that raises
    ends the block and is followed by the rollback. *)
Fixpoint issued (env : Env) (plan : list Call) : list Call :=
  match plan with
  | [] => []
  | c :: plan' =>
      c :: match raises env c with
           | Some _ => [PgRollback]
           | None => issued env plan'
           end
  end.

Definition delete_plan (doc_id : string) : list Call :=
  [PgDeleteDocument doc_id; PgCommit; ChromaDelete doc_id;
   RedisDelete ("document:" +:+ doc_id)].

(** The sub-deletes of [doc_id] among the calls [l], in the order in
    which they were issued. *)
Definition sub_deletes (doc_id : string) (l : list Call) : list Call :=
  filter (λ c, c ∈ [PgDeleteDocument doc_id; ChromaDelete doc_id;
                    RedisDelete ("document:" +:+ doc_id)]) l.

Definition reports_not_found {A} (r : Response A) : Prop :=
  ∃ detail, r = Error 404 detail.

(** The similarity the index step computed for id [i]: one minus the
    distance listed at the position of [i] in the reply. *)
Fixpoint score_of (i : string) (ids : list string) (distances : list Q)
  : option Q :=
  match ids, distances with
  | j :: ids', d :: distances' =>
      if decide (i = j) then Some (1 - d)%Q else score_of i ids' distances'
  | _, _ => None
  end.

Definition within (lo hi : Q) (d : Document.t) : Prop :=
  match Document.similarity d with
  | Some s => (lo <= s)%Q ∧ (s <= hi)%Q
  | None => False
  end.

(** What [tags_field] returns on an aggregate that is not empty. *)
Definition tags_value (agg : list (option string)) : list string :=
  match agg with
  | Some s :: _ => if String.eqb s "" then [] else omap id agg
  | _ => []
  end.

(** The row has a media type and a timestamp, as every row written by
    [create_document] has. *)
Definition complete_row (r : Pg.DocRow) : Prop :=
  is_Some (Pg.mime_type r) ∧ is_Some (Pg.created_at r).

#[global] Instance complete_row_dec r : Decision (complete_row r).
Proof. unfold complete_row. apply _. Defined.

Definition complete (t : Pg.Tables) : Prop :=
  Forall complete_row (Pg.documents t).

#[global] Instance complete_dec t : Decision (complete t).
Proof. unfold complete. apply _. Defined.

(** What [to_document] returns on a complete row whose aggregate is not
    empty. *)
Definition document_of (similarity : option Q) (j : Pg.Joined)
  : Document.t :=
  let r := Pg.row j in
  Document.mk (Pg.id r) (Pg.filename r) (default "" (Pg.content r))
    (default "" (Pg.mime_type r)) (default 0%Z (Pg.created_at r))
    (tags_value (Pg.agg j)) (Pg.metadata r) similarity.


(** The world after [tags] were inserted for [doc_id]. *)
Definition after_tags (doc_id : string) (tags : list string) (w : World)
  : World :=
  mkWorld (committed w)
    (Pg.mkTables (Pg.documents (session w))
       (Pg.tags (session w) ++ (Pg.mkTagRow doc_id <$> tags)))
    (collection w) (cache w)
    (calls w ++ (PgInsertTag doc_id <$> tags)).

(** The world after the database part of a create went through: the
    row and its tags inserted, the transaction committed. *)
Definition after_commit (env : Env) (document : DocumentCreate.t)
    (w : World) : World :=
  let doc_id := uuid4 env in
  let ai_data :=
    Annotator.generate_tags_and_summary
      (DocumentCreate.content document) (DocumentCreate.mimeType document) in
  let t :=
    Pg.mkTables
      (Pg.documents (session w)
       ++ [Pg.mkDocRow doc_id (DocumentCreate.filename document)
             (Some (DocumentCreate.content document))
             (Some (DocumentCreate.mimeType document))
             (Some (current_timestamp env)) (Some ai_data)])
      (Pg.tags (session w)
       ++ (Pg.mkTagRow doc_id <$> Annotator.tags ai_data)) in
  mkWorld t t (collection w) (cache w)
    (calls w ++ PgInsertDocument doc_id
       :: (PgInsertTag doc_id <$> Annotator.tags ai_data) ++ [PgCommit]).

(** The document a successful create returns. *)
Definition created (env : Env) (document : DocumentCreate.t) : Document.t :=
  let ai_data :=
    Annotator.generate_tags_and_summary
      (DocumentCreate.content document) (DocumentCreate.mimeType document) in
  Document.mk (uuid4 env) (DocumentCreate.filename document)
    (DocumentCreate.content document) (DocumentCreate.mimeType document)
    (datetime_now env) (Annotator.tags ai_data) (Some ai_data) None.

(** The body of the loop of [search_documents] over the fetched rows. *)
Definition attach (similarities : list Q) (i : nat) (row : Pg.Joined)
  : M Document.t :=
  to_document row (s ← item similarities i; mret (Some s)).

(** The text [create_document] hands to the model. *)
Definition text_to_embed (document : DocumentCreate.t) : string :=
  if Py.startswith (DocumentCreate.mimeType document) "text/"
  then DocumentCreate.content document
  else Annotator.summary
         (Annotator.generate_tags_and_summary
            (DocumentCreate.content document)
            (DocumentCreate.mimeType document)).

(** The message of the step that ends the part of a create after its
    commit: the embedding step if it raises, else the index step. *)
Definition first_failure (env : Env) (document : DocumentCreate.t)
  : option string :=
  match raises env (ModelEncode (text_to_embed document)) with
  | Some msg => Some msg
  | None => raises env (ChromaAdd (uuid4 env))
  end.

(** The database part of a create goes through: none of its calls is
    made to raise and the generated id is new. *)
Definition commits (env : Env) (w : World) (document : DocumentCreate.t)
  : Prop :=
  let doc_id := uuid4 env in
  fresh (session w) doc_id
  ∧ raises env (PgInsertDocument doc_id) = None
  ∧ (∀ tag, raises env (PgInsertTag doc_id tag) = None)
  ∧ raises env PgCommit = None.

End Spec.

(** ** Concrete requests used in the examples *)

Module Scenario.
Import Api.

Definition quiet : Call → option string := λ _, None.

Definition model_down : Call → option string :=
  λ c, match c with ModelEncode _ => Some "model down" | _ => None end.
Definition index_down : Call → option string :=
  λ c, match c with ChromaAdd _ => Some "index down" | _ => None end.
Definition cache_down : Call → option string :=
  λ c, match c with RedisSetex _ => Some "cache down" | _ => None end.

Definition reply (ids : list string) (distances : list Q)
  : list Chroma.Entry → list Q → nat → Chroma.QueryResult :=
  λ _ _ _, Chroma.mkQueryResult ids distances.

Definition no_reply := reply [] [].

Definition row_a : Pg.DocRow :=
  Pg.mkDocRow "a" "a.txt" (Some "alpha") (Some "text/plain") (Some 20%Z) None.
Definition row_b : Pg.DocRow :=
  Pg.mkDocRow "b" "b.txt" (Some "beta") (Some "text/plain") (Some 10%Z) None.
Definition row_c : Pg.DocRow :=
  Pg.mkDocRow "c" "c.bin" None (Some "application/octet-stream") (Some 30%Z)
    None.

Definition entry (i : string) : Chroma.Entry :=
  Chroma.mkEntry i [] (i +:+ ".txt") "text/plain" [] "".

Definition world_of (t : Pg.Tables) (c : list Chroma.Entry) : World :=
  mkWorld t t c ∅ [].

(** Nothing stored anywhere. *)
Definition w_empty : World := world_of Pg.empty [].

(** [b] was stored before [a]; both are indexed. *)
Definition t_ba : Pg.Tables :=
  Pg.mkTables [row_b; row_a] [Pg.mkTagRow "b" "beta"; Pg.mkTagRow "a" "alpha"].
Definition w_ba : World := world_of t_ba [entry "b"; entry "a"].

(** Only [b] is stored, but the index still holds [a] (what a delete
    leaves behind when its index call raises after the commit). *)
Definition t_b : Pg.Tables := Pg.mkTables [row_b] [Pg.mkTagRow "b" "beta"].
Definition w_b_dangling : World := world_of t_b [entry "a"; entry "b"].

(** Three rows, the last one without tags. *)
Definition t_bac : Pg.Tables :=
  Pg.mkTables [row_b; row_a; row_c]
              [Pg.mkTagRow "b" "beta"; Pg.mkTagRow "a" "alpha"].
Definition w_bac : World := world_of t_bac [].

(** The index ranks [a] (distance 1/4) before [b] (distance 1/2). *)
Definition env_rank_ab : Env :=
  mkEnv "u" 40 41 (λ _, []) (reply ["a"; "b"] [(1 # 4)%Q; (1 # 2)%Q]) quiet.

(** The index ranks [b] (distance 1/4) before [a] (distance 1/2). *)
Definition env_rank_ba : Env :=
  mkEnv "u" 40 41 (λ _, []) (reply ["b"; "a"] [(1 # 4)%Q; (1 # 2)%Q]) quiet.

(** A row written past the handlers, with no timestamp. *)
Definition row_undated : Pg.DocRow :=
  Pg.mkDocRow "n" "n.txt" (Some "nu") (Some "text/plain") None None.
Definition w_undated : World := world_of (Pg.mkTables [row_undated] []) [].

(** The index finds that row. *)
Definition env_hit_undated : Env :=
  mkEnv "u" 40 41 (λ _, []) (reply ["n"] [(1 # 4)%Q]) quiet.

(** The index finds [b] at cosine distance 3/2. *)
Definition env_far : Env :=
  mkEnv "u" 40 41 (λ _, []) (reply ["b"] [(3 # 2)%Q]) quiet.

Definition env_quiet : Env := mkEnv "u" 40 41 (λ _, []) no_reply quiet.

Definition env_model_down : Env :=
  mkEnv "u" 40 41 (λ _, []) no_reply model_down.
Definition env_index_down : Env :=
  mkEnv "u" 40 41 (λ _, []) no_reply index_down.
Definition env_cache_down : Env :=
  mkEnv "u" 40 41 (λ _, []) no_reply cache_down.

Definition hello : DocumentCreate.t :=
  DocumentCreate.mk "a.txt" "hello world" "text/plain".
Definition nameless : DocumentCreate.t :=
  DocumentCreate.mk "" "hello world" "".

End Scenario.

(** ** Statistics *)

Module Stats.
Import Api.

Record StatsResponse := mkStatsResponse { documents : nat; tags : nat }.

(** The two statements of [get_stats]. *)
Inductive Count :=
  | CountDocuments       (* SELECT COUNT( * ) FROM documents *)
  | CountDistinctTags.   (* SELECT COUNT(DISTINCT tag) FROM tags *)

Definition count (c : Count) (t : Pg.Tables) : nat :=
  match c with
  | CountDocuments => length (Pg.documents t)
  | CountDistinctTags =>
      size (list_to_set (Pg.tag <$> Pg.tags t) : gset string)
  end.

(** [cur.execute(...)] followed by [cur.fetchone()["count"]]; [faults]
    tells which of the two statements raises. *)
Definition fetch_count (faults : Count → option string) (c : Count) : M nat :=
  λ _ w,
    match faults c with
    | Some msg => (w, Raise (PyExc msg))
    | None => (w, Return (count c (session w)))
    end.

(** GET /api/stats (no try/except in this handler) *)
Definition get_stats (faults : Count → option string) : M StatsResponse :=
  doc_count ← fetch_count faults CountDocuments;
  tag_count ← fetch_count faults CountDistinctTags;
  mret (mkStatsResponse doc_count tag_count).

End Stats.

(** ** Invariants and a small program logic for the handlers *)

Module Logic.
Import Api.

(** The constraints declared by [init_database]: the primary key of
    [documents], UNIQUE(doc_id, tag) and the foreign key of [tags]. *)
Definition constraints (t : Pg.Tables) : Prop :=
  NoDup (Pg.id <$> Pg.documents t)
  ∧ NoDup (Pg.tags t)
  ∧ Forall (λ r, Pg.doc_id r ∈ Pg.id <$> Pg.documents t) (Pg.tags t).

#[global] Instance constraints_dec t : Decision (constraints t).
Proof. unfold constraints. apply _. Defined.

Definition consistent (w : World) : Prop :=
  constraints (committed w) ∧ constraints (session w).

#[global] Instance consistent_dec w : Decision (consistent w).
Proof. unfold consistent. apply _. Defined.

(** The contents of the three stores, without the record of calls. *)
Definition stores (w : World)
  : Pg.Tables * Pg.Tables * list Chroma.Entry * gmap string Redis.Entry :=
  (committed w, session w, collection w, cache w).

(** The stores hold what they hold in [w0]. *)
Definition same (w0 w : World) : Prop := stores w = stores w0.

(** What is durable or outside the database transaction. *)
Definition durable (w : World)
  : Pg.Tables * list Chroma.Entry * gmap string Redis.Entry :=
  (committed w, collection w, cache w).

(** Started in a world satisfying [P], the computation ends in a world
    and with a result satisfying [Q]. *)
Definition triple (env : Env) (P : World → Prop) {A} (m : M A)
    (Q : World → Result A → Prop) : Prop :=
  ∀ w, P w → Q (m env w).1 (m env w).2.

(** [P] holds afterwards whenever it held before, raise or no raise. *)
Definition keeps (env : Env) (P : World → Prop) {A} (m : M A) : Prop :=
  triple env P m (λ w _, P w).

(** Started in a world satisfying [P], the computation raises, in a
    world that still satisfies [P]. *)
Definition fails (env : Env) (P : World → Prop) {A} (m : M A) : Prop :=
  triple env P m (λ w r, P w ∧ ∃ e, r = Raise e).

(** The durable part is the one of [w0]. *)
Definition untouched (w0 w : World) : Prop := durable w = durable w0.

(** The connection has no uncommitted change. *)
Definition settled (w : World) : Prop := session w = committed w.

(** [P] holds in the final world whenever the computation returns. *)
Definition on_return (P : World → Prop) {A} (w : World) (r : Result A)
  : Prop :=
  ∀ a, r = Return a → P w.

(** [P] does not look at the record of calls. *)
Definition blind (P : World → Prop) : Prop :=
  ∀ c w, P w → P (with_call c w).

(** The key under which a document is cached. *)
Definition cache_key (doc_id : string) : string := "document:" +:+ doc_id.

(** No call of a successful create raises and the id is new. *)
Definition create_succeeds (env : Env) (w : World)
    (document : DocumentCreate.t) : Prop :=
  Spec.commits env w document
  ∧ raises env (ModelEncode (Spec.text_to_embed document)) = None
  ∧ raises env (ChromaAdd (uuid4 env)) = None
  ∧ raises env (RedisSetex (cache_key (uuid4 env))) = None.

(** No call of a delete raises. *)
Definition delete_succeeds (env : Env) (doc_id : string) : Prop :=
  Forall (λ c, raises env c = None) (Spec.delete_plan doc_id).

(** The index entry a create adds. *)
Definition index_entry (env : Env) (document : DocumentCreate.t)
  : Chroma.Entry :=
  let ai_data :=
    Annotator.generate_tags_and_summary
      (DocumentCreate.content document) (DocumentCreate.mimeType document) in
  Chroma.mkEntry (uuid4 env) (encode env (Spec.text_to_embed document))
    (DocumentCreate.filename document) (DocumentCreate.mimeType document)
    (Annotator.tags ai_data)
    (Py.slice_to 1000 (Spec.text_to_embed document)).

(** The cache entry a create writes. *)
Definition cache_entry (env : Env) (document : DocumentCreate.t)
  : Redis.Entry :=
  let ai_data :=
    Annotator.generate_tags_and_summary
      (DocumentCreate.content document) (DocumentCreate.mimeType document) in
  Redis.mkEntry 3600 (uuid4 env) (DocumentCreate.filename document)
    (Annotator.tags ai_data) (Annotator.summary ai_data).

(** A character that [str.lower] leaves alone and [str.split] keeps. *)
Definition plain_char (c : ascii) : Prop :=
  Py.isspace c = false ∧ Py.between 65 90 c = false.

Definition chars (s : string) : list ascii := list_ascii_of_string s.

End Logic.

(** * Theorems *)

(** ** The annotator *)

Section annotator_facts.
Import Annotator.

Lemma len_slice_to n s : Py.len (Py.slice_to n s) ≤ n.
Proof.
  unfold Py.len. revert s.
  induction n as [|n IH]; intros [|c s]; simpl; try lia.
  specialize (IH s). lia.
Qed.

Lemma len_append s1 s2 : Py.len (s1 +:+ s2) = Py.len s1 + Py.len s2.
Proof.
  unfold Py.len. induction s1 as [|c s1 IH]; simpl; [done|]. by rewrite IH.
Qed.

Lemma or_list_length {A} (x y : list A) n :
  length x ≤ n → length y ≤ n → length (Py.or_list x y) ≤ n.
Proof. by destruct x. Qed.

Lemma or_list_nonempty {A} (x y : list A) : y ≠ [] → Py.or_list x y ≠ [].
Proof. by destruct x. Qed.

Lemma text_summary content :
  let summary :=
    if 200 <? Py.len content then Py.slice_to 200 content +:+ "..."
    else content in
  (Py.len content ≤ 200 → summary = content)
  ∧ (200 < Py.len content → summary = Py.slice_to 200 content +:+ "...")
  ∧ Py.len summary ≤ 203.
Proof.
  cbv zeta. destruct (Nat.ltb_spec 200 (Py.len content)) as [Hlong|Hshort].
  - split_and!; [lia|done|].
    rewrite len_append. pose proof (len_slice_to 200 content).
    change (Py.len "...") with 3. lia.
  - split_and!; [done|lia|lia].
Qed.

End annotator_facts.

(** C10.  For every content and media type the annotator returns between
    one and five tags; for a textual media type the summary is the content
    itself when it has at most 200 characters, otherwise its first 200
    characters followed by three dots, hence at most 203 characters. *)
Theorem generate_tags_and_summary_shape (content mime_type : string) :
  let r := Annotator.generate_tags_and_summary content mime_type in
  Annotator.tags r ≠ []
  ∧ length (Annotator.tags r) ≤ 5
  ∧ (Annotator.is_textual mime_type = true →
     (Py.len content ≤ 200 → Annotator.summary r = content)
     ∧ (200 < Py.len content →
        Annotator.summary r = Py.slice_to 200 content +:+ "...")
     ∧ Py.len (Annotator.summary r) ≤ 203).
Proof.
  unfold Annotator.generate_tags_and_summary.
  destruct (Annotator.is_textual mime_type) eqn:Htext;
    cbn [Annotator.tags Annotator.summary].
  - split_and!.
    + by apply or_list_nonempty.
    + apply or_list_length; [|simpl; lia].
      rewrite length_take. lia.
    + intros _. apply text_summary.
  - split_and!; [done|simpl; lia|done].
Qed.

Lemma generate_tags_and_summary_shape_witness :
  Annotator.is_textual "text/plain" = true
  ∧ Py.len "hello world" ≤ 200
  ∧ Annotator.summary
      (Annotator.generate_tags_and_summary "hello world" "text/plain")
    = "hello world".
Proof.
  split; [reflexivity|]. split; [vm_compute; lia|].
  destruct (generate_tags_and_summary_shape "hello world" "text/plain")
    as (_ & _ & Hsum).
  destruct (Hsum eq_refl) as (Hshort & _ & _).
  apply Hshort. vm_compute. lia.
Defined.

(** ** Running the handlers *)

Section run.
Import Api Spec.
Context (env : Env).

Lemma run_bind {A B} (m : M A) (k : A → M B) w :
  (m ≫= k) env w =
  match m env w with
  | (w', Return a) => k a env w'
  | (w', Raise e) => (w', Raise e)
  end.
Proof. done. Qed.

Lemma run_ret {A} (a : A) w : (mret a : M A) env w = (w, Return a).
Proof. done. Qed.

Lemma run_get w : get env w = (w, Return w).
Proof. done. Qed.

Lemma run_ask w : ask env w = (w, Return env).
Proof. done. Qed.

Lemma run_modify f w : modify f env w = (f w, Return tt).
Proof. done. Qed.

Lemma run_call_quiet c w :
  raises env c = None → call c env w = (with_call c w, Return tt).
Proof. unfold call. by intros ->. Qed.

Lemma run_call_raises c msg w :
  raises env c = Some msg → call c env w = (with_call c w, Raise (PyExc msg)).
Proof. unfold call. by intros ->. Qed.




End run.

Ltac run :=
  repeat progress
    (rewrite ?run_bind, ?run_get, ?run_ask, ?run_modify, ?run_ret;
     cbn beta iota).

(** ** Listing *)

Section listing.
Import Api Spec.












End listing.




Example get_documents_three :
  snd (Api.serve Api.get_documents Scenario.env_quiet Scenario.w_bac)
  = Api.Ok
      [Document.mk "c" "c.bin" "" "application/octet-stream" 30 [] None None;
       Document.mk "a" "a.txt" "alpha" "text/plain" 20 ["alpha"] None None;
       Document.mk "b" "b.txt" "beta" "text/plain" 10 ["beta"] None None].
Proof. vm_compute. done. Qed.

(** ** Delete *)

Section delete.
Import Api Spec.

Lemma delete_document_calls env w doc_id :
  calls (fst (delete_document doc_id env w))
  = calls w ++ issued env (delete_plan doc_id).
Proof.
  unfold delete_document, try_except, pg_delete_document, pg_commit,
    chroma_delete, redis_delete, pg_rollback, delete_plan, call, modify,
    raise, mbind, M_bind, mret, M_ret.
  cbn [issued].
  repeat (destruct (raises env _) as [?|]; cbn);
    rewrite <- ?app_assoc; done.
Qed.

Lemma delete_document_quiet env w doc_id :
  Forall (λ c, raises env c = None) (delete_plan doc_id) →
  snd (delete_document doc_id env w) = Return (mkSuccess true).
Proof.
  unfold delete_plan. rewrite !Forall_cons.
  intros (Hpg & Hcommit & Hchroma & Hredis & _).
  unfold delete_document, try_except, pg_delete_document, pg_commit,
    chroma_delete, redis_delete, call, modify, mbind, M_bind, mret, M_ret.
  by rewrite Hpg, Hcommit, Hchroma, Hredis.
Qed.

Lemma delete_document_status env w doc_id :
  snd (serve (delete_document doc_id) env w) = Ok (mkSuccess true)
  ∨ ∃ detail, snd (serve (delete_document doc_id) env w) = Error 500 detail.
Proof.
  unfold serve, delete_document, try_except, pg_delete_document, pg_commit,
    chroma_delete, redis_delete, pg_rollback, call, modify, raise,
    mbind, M_bind, mret, M_ret.
  repeat (destruct (raises env _) as [?|]; cbn); eauto.
Qed.

Lemma delete_document_raises env w doc_id :
  Exists (λ c, is_Some (raises env c)) (delete_plan doc_id) →
  ∃ detail, snd (serve (delete_document doc_id) env w) = Error 500 detail.
Proof.
  unfold delete_plan. rewrite !Exists_cons, Exists_nil.
  unfold serve, delete_document, try_except, pg_delete_document, pg_commit,
    chroma_delete, redis_delete, pg_rollback, call, modify, raise,
    mbind, M_bind, mret, M_ret.
  repeat (destruct (raises env _) as [?|]; cbn); eauto.
  intros [[? [=]]|[[? [=]]|[[? [=]]|[[? [=]]|[]]]]].
Qed.

End delete.

(** C4 (the claim fails).  Deleting an id that no row carries, with every
    store call going through, is answered with [success: true]. *)
Lemma delete_missing_is_success :
  Pg.rowcount_delete "zzz" (Api.session Scenario.w_empty) = 0
  ∧ snd (Api.serve (Api.delete_document "zzz") Scenario.env_quiet
           Scenario.w_empty)
    = Api.Ok (Api.mkSuccess true)
  ∧ ¬ Spec.reports_not_found
        (snd (Api.serve (Api.delete_document "zzz") Scenario.env_quiet
                Scenario.w_empty)).
Proof.
  split_and!; [done|done|]. intros [detail Hr]. vm_compute in Hr. done.
Qed.

(** C4 (amended).  A delete of an id for which the store delete affects
    no row reports [success: true] whenever none of its four store calls
    raises, and a 500 whenever one of them raises; in every case the
    answer is that success or a 500, never a 404-class result. *)
Theorem delete_missing_reports_success
    (env : Api.Env) (w : Api.World) (doc_id : string) :
  Pg.rowcount_delete doc_id (Api.session w) = 0 →
  let r := snd (Api.serve (Api.delete_document doc_id) env w) in
  (Forall (λ c, Api.raises env c = None) (Spec.delete_plan doc_id) →
   r = Api.Ok (Api.mkSuccess true))
  ∧ (Exists (λ c, is_Some (Api.raises env c)) (Spec.delete_plan doc_id) →
     ∃ detail, r = Api.Error 500 detail)
  ∧ (r = Api.Ok (Api.mkSuccess true) ∨ ∃ detail, r = Api.Error 500 detail)
  ∧ ¬ Spec.reports_not_found r.
Proof.
  intros _ r. subst r. split_and!.
  - intros Hquiet. unfold Api.serve.
    pose proof (delete_document_quiet env w doc_id Hquiet) as Hrun.
    destruct (Api.delete_document doc_id env w) as [w' r]. cbn in Hrun.
    by subst r.
  - apply delete_document_raises.
  - apply delete_document_status.
  - intros [detail Hr].
    destruct (delete_document_status env w doc_id) as [Hok|[detail' Herr]];
      congruence.
Qed.

Lemma delete_missing_reports_success_witness :
  snd (Api.serve (Api.delete_document "zzz") Scenario.env_quiet
         Scenario.w_empty)
  = Api.Ok (Api.mkSuccess true).
Proof.
  apply (delete_missing_reports_success Scenario.env_quiet Scenario.w_empty
           "zzz" eq_refl).
  unfold Spec.delete_plan. repeat constructor.
Defined.

(** C5 (the claim fails).  For a stored and indexed document the
    sub-deletes are issued store first, then index, then cache. *)
Lemma delete_order_is_store_first :
  Spec.sub_deletes "a"
    (Api.calls (fst (Api.serve (Api.delete_document "a") Scenario.env_quiet
                       Scenario.w_ba)))
  = [Api.PgDeleteDocument "a"; Api.ChromaDelete "a";
     Api.RedisDelete "document:a"]
  ∧ Spec.sub_deletes "a"
      (Api.calls (fst (Api.serve (Api.delete_document "a") Scenario.env_quiet
                         Scenario.w_ba)))
    ≠ [Api.ChromaDelete "a"; Api.RedisDelete "document:a";
       Api.PgDeleteDocument "a"].
Proof. split; [by vm_compute|]. vm_compute. discriminate. Qed.

(** C5 (amended).  Every delete issues its calls in the order: store
    delete, commit, index delete, cache delete; the first call that raises
    ends the sequence and is followed by the rollback. *)
Theorem delete_issues_store_index_cache
    (env : Api.Env) (w : Api.World) (doc_id : string) :
  Api.calls (fst (Api.serve (Api.delete_document doc_id) env w))
  = Api.calls w ++ Spec.issued env (Spec.delete_plan doc_id).
Proof.
  rewrite <- delete_document_calls. unfold Api.serve.
  by destruct (Api.delete_document doc_id env w) as [w' [a|[msg|code detail]]].
Qed.

Example delete_issues_when_index_raises :
  let env := Api.mkEnv "u" 0 0 (λ _, []) Scenario.no_reply
               (λ c, match c with
                     | Api.ChromaDelete _ => Some "index down"
                     | _ => None
                     end) in
  Spec.issued env (Spec.delete_plan "a")
  = [Api.PgDeleteDocument "a"; Api.PgCommit; Api.ChromaDelete "a";
     Api.PgRollback]
  ∧ Pg.has_document
      (Api.committed (fst (Api.serve (Api.delete_document "a") env
                             Scenario.w_ba))) "a" = false
  ∧ Chroma.has_id
      (Api.collection (fst (Api.serve (Api.delete_document "a") env
                              Scenario.w_ba))) "a" = true.
Proof. by vm_compute. Qed.

(** ** Create *)

Section tags_distinct.
Import Annotator.

Lemma upper_char_not_lower c : Py.between 97 122 (Py.upper_char c) = false.
Proof. by destruct c as [[] [] [] [] [] [] [] []]. Qed.

Lemma upper_head c s t : Py.between 97 122 c = true → Py.upper t ≠ String c s.
Proof.
  intros Hc. destruct t as [|c' t]; [done|]. cbn. intros [= Hc' _].
  pose proof (upper_char_not_lower c') as Hup. congruence.
Qed.

(** The tags of one document never collide in UNIQUE(doc_id, tag). *)
Lemma tags_NoDup content mime_type :
  NoDup (tags (generate_tags_and_summary content mime_type)).
Proof.
  unfold generate_tags_and_summary.
  destruct (is_textual mime_type); cbn [tags].
  - destruct (take 5 _) as [|tag l] eqn:Htake; cbn [Py.or_list].
    + by apply NoDup_ListNoDup; repeat constructor; cbn; intuition.
    + rewrite <- Htake.
      eapply sublist_NoDup; cycle 1; [apply sublist_take|].
      unfold Py.list_of_set. apply NoDup_elements.
  - apply NoDup_cons. split.
    2: { apply NoDup_ListNoDup. repeat constructor; cbn; intuition.
         discriminate. }
    rewrite !elem_of_cons, elem_of_nil.
    intros [H|[H|[]]]; by apply upper_head in H.
Qed.

End tags_distinct.

Section create.
Import Api Spec.
Context (env : Env).

Lemma pg_insert_tag_returns doc_id tag w :
  raises env (PgInsertTag doc_id tag) = None →
  Pg.has_document (session w) doc_id = true →
  Pg.mkTagRow doc_id tag ∉ Pg.tags (session w) →
  pg_insert_tag doc_id tag env w = (after_tags doc_id [tag] w, Return tt).
Proof.
  intros Hquiet Hdoc Hnew. unfold pg_insert_tag.
  rewrite run_bind, run_call_quiet by done. run.
  unfold Pg.insert_tag. cbn [session with_call Pg.doc_id].
  rewrite Hdoc, bool_decide_eq_false_2 by done. done.
Qed.

Lemma for_each_insert_tags doc_id tags w :
  NoDup tags →
  (∀ tag, raises env (PgInsertTag doc_id tag) = None) →
  Pg.has_document (session w) doc_id = true →
  (∀ tag, tag ∈ tags → Pg.mkTagRow doc_id tag ∉ Pg.tags (session w)) →
  for_each tags (pg_insert_tag doc_id) env w
  = (after_tags doc_id tags w, Return tt).
Proof.
  intros Hnodup Hquiet. revert w.
  induction Hnodup as [|tag tags Htag _ IH]; intros w Hdoc Hnew.
  - cbn. unfold after_tags. cbn. rewrite !app_nil_r.
    by destruct w as [c [d t] i r l].
  - cbn [for_each]. rewrite run_bind, pg_insert_tag_returns; [|done|done|].
    + rewrite IH.
      * unfold after_tags. cbn. by rewrite <- !app_assoc.
      * done.
      * intros tag' Htag'. cbn. rewrite elem_of_app, list_elem_of_singleton.
        intros [Hin|[= ->]]; [|done].
        by apply (Hnew tag'); [right|].
    + apply Hnew. left.
Qed.

Lemma fresh_has_document t doc_id :
  fresh t doc_id → Pg.has_document t doc_id = false.
Proof. intros [Hdoc _]. by apply bool_decide_eq_false_2. Qed.

Lemma fresh_no_tag t doc_id tag :
  fresh t doc_id → Pg.mkTagRow doc_id tag ∉ Pg.tags t.
Proof.
  intros [_ Htag] Hin. apply Htag, list_elem_of_fmap.
  by exists (Pg.mkTagRow doc_id tag).
Qed.

(** The database part of a create, followed by any continuation. *)
Lemma create_database_part {B} (k : M B) document w :
  commits env w document →
  let ai_data :=
    Annotator.generate_tags_and_summary
      (DocumentCreate.content document) (DocumentCreate.mimeType document) in
  (pg_insert_document
     (Pg.mkDocRow (uuid4 env) (DocumentCreate.filename document)
        (Some (DocumentCreate.content document))
        (Some (DocumentCreate.mimeType document))
        (Some (current_timestamp env)) (Some ai_data)) ;;
   for_each (Annotator.tags ai_data) (pg_insert_tag (uuid4 env)) ;;
   pg_commit ;;
   k) env w
  = k env (after_commit env document w).
Proof.
  intros (Hfresh & Hdoc & Htags & Hcommit) ai_data.
  rewrite run_bind. unfold pg_insert_document.
  rewrite run_bind, run_call_quiet by done. run.
  unfold Pg.insert_document. cbn [session with_call Pg.id].
  rewrite fresh_has_document by done. run.
  rewrite for_each_insert_tags.
  - run. unfold pg_commit. rewrite run_bind, run_call_quiet by done. run.
    f_equal. unfold after_commit, after_tags, with_committed, with_session,
      with_call. cbn. fold ai_data. f_equal. by rewrite <- !app_assoc.
  - apply tags_NoDup.
  - done.
  - apply bool_decide_eq_true_2. cbn [session with_session Pg.documents].
    rewrite fmap_app, elem_of_app. right. cbn. left.
  - intros tag _. cbn. by apply fresh_no_tag.
Qed.

End create.

Section create_outcomes.
Import Api Spec.
Context (env : Env) (w : World) (document : DocumentCreate.t).
Hypothesis Hcommits : commits env w document.

Lemma after_commit_has_document :
  Pg.has_document (committed (after_commit env document w)) (uuid4 env)
  = true.
Proof.
  apply bool_decide_eq_true_2. cbn [committed after_commit Pg.documents].
  rewrite fmap_app, elem_of_app. right. cbn. left.
Qed.

Lemma add_has_id e c : Chroma.has_id (Chroma.add e c) (Chroma.id e) = true.
Proof.
  unfold Chroma.add. destruct (Chroma.has_id c (Chroma.id e)) eqn:Hin;
    [done|].
  apply bool_decide_eq_true_2. rewrite fmap_app, elem_of_app. right.
  cbn. left.
Qed.

Ltac enter_create :=
  unfold serve, create_document; rewrite run_bind, run_ask;
  cbn beta iota zeta; unfold try_except;
  rewrite (create_database_part env _ document w Hcommits);
  fold (text_to_embed document);
  unfold model_encode, chroma_add, redis_setex, pg_rollback, call, modify,
    raise, ask, mbind, M_bind, mret, M_ret.

(** The model or the index raises after the commit. *)
Lemma create_degraded msg :
  raises env (ModelEncode (text_to_embed document)) = Some msg
  ∨ raises env (ChromaAdd (uuid4 env)) = Some msg →
  Pg.has_document
    (committed (fst (serve (create_document document) env w))) (uuid4 env)
  = true
  ∧ ∃ detail,
      snd (serve (create_document document) env w) = Error 500 detail.
Proof.
  intros Hfail. enter_create.
  destruct (raises env (ModelEncode _)) as [msg1|] eqn:Hmodel.
  - destruct (raises env PgRollback);
      cbn [fst snd committed with_call with_session];
      (split; [apply after_commit_has_document|eauto]).
  - destruct Hfail as [?|Hindex]; [done|]. cbn [Chroma.id]. rewrite Hindex.
    destruct (raises env PgRollback);
      cbn [fst snd committed with_call with_session];
      (split; [apply after_commit_has_document|eauto]).
Qed.

(** The detail of that answer, by what the rollback of the handler does. *)
Lemma create_degraded_detail msg :
  raises env (ModelEncode (text_to_embed document)) = Some msg
  ∨ raises env (ChromaAdd (uuid4 env)) = Some msg →
  (raises env PgRollback = None →
   ∃ cause,
     first_failure env document = Some cause
     ∧ snd (serve (create_document document) env w)
       = Error 500 ("Failed to process document: " +:+ cause))
  ∧ (is_Some (raises env PgRollback) →
     snd (serve (create_document document) env w)
     = Error 500 "Internal Server Error").
Proof.
  intros Hfail. enter_create. unfold first_failure.
  destruct (raises env (ModelEncode _)) as [msg1|] eqn:Hmodel.
  - destruct (raises env PgRollback); cbn [snd]; split;
      try done; try (by intros [? [=]]). eauto.
  - destruct Hfail as [?|Hindex]; [done|]. cbn [Chroma.id]. rewrite Hindex.
    destruct (raises env PgRollback); cbn [snd]; split;
      try done; try (by intros [? [=]]). eauto.
Qed.

(** The cache raises after the row was committed and indexed. *)
Lemma create_cache_failure msg :
  raises env (ModelEncode (text_to_embed document)) = None →
  raises env (ChromaAdd (uuid4 env)) = None →
  raises env (RedisSetex ("document:" +:+ uuid4 env)) = Some msg →
  Pg.has_document
    (committed (fst (serve (create_document document) env w))) (uuid4 env)
  = true
  ∧ Chroma.has_id
      (collection (fst (serve (create_document document) env w)))
      (uuid4 env)
    = true
  ∧ ∃ detail,
      snd (serve (create_document document) env w) = Error 500 detail.
Proof.
  intros Hmodel Hindex Hcache. enter_create.
  rewrite Hmodel. cbn [Chroma.id]. rewrite Hindex, Hcache.
  destruct (raises env PgRollback);
    cbn [fst snd committed collection with_call with_session
         with_collection];
    (split_and!; [apply after_commit_has_document|apply add_has_id|eauto]).
Qed.

(** Nothing raises. *)
Lemma create_success :
  raises env (ModelEncode (text_to_embed document)) = None →
  raises env (ChromaAdd (uuid4 env)) = None →
  raises env (RedisSetex ("document:" +:+ uuid4 env)) = None →
  Pg.has_document
    (committed (fst (serve (create_document document) env w))) (uuid4 env)
  = true
  ∧ snd (serve (create_document document) env w)
    = Ok (created env document).
Proof.
  intros Hmodel Hindex Hcache. enter_create.
  rewrite Hmodel. cbn [Chroma.id]. rewrite Hindex, Hcache.
  cbn [fst snd committed with_call with_collection with_cache].
  split; [apply after_commit_has_document|done].
Qed.

End create_outcomes.

(** C3 (the claim fails).  The model raises after the commit: the row
    stays committed, and the caller gets a 500, not the document. *)
Lemma create_model_failure_is_error :
  Pg.has_document
    (Api.committed
       (fst (Api.serve (Api.create_document Scenario.hello)
               Scenario.env_model_down Scenario.w_empty))) "u" = true
  ∧ snd (Api.serve (Api.create_document Scenario.hello)
           Scenario.env_model_down Scenario.w_empty)
    = Api.Error 500 "Failed to process document: model down"
  ∧ ∀ d, snd (Api.serve (Api.create_document Scenario.hello)
                Scenario.env_model_down Scenario.w_empty) ≠ Api.Ok d.
Proof. split_and!; [by vm_compute|by vm_compute|]. intros d. by vm_compute. Qed.

(** C3 (amended).  When the database part of a create has gone through
    and the embedding step or the index step then raises, the committed
    row is not rolled back, and the caller receives a 500 error, never
    the document.  When the rollback of the handler goes through, the
    detail is [Failed to process document: ] followed by the message of
    the step that raised (the embedding step if it raised, else the index
    step); when the rollback raises as well, the detail is
    [Internal Server Error]. *)
Theorem create_failure_after_commit
    (env : Api.Env) (w : Api.World) (document : DocumentCreate.t)
    (msg : string) :
  Spec.commits env w document →
  Api.raises env (Api.ModelEncode (Spec.text_to_embed document)) = Some msg
  ∨ Api.raises env (Api.ChromaAdd (Api.uuid4 env)) = Some msg →
  (Pg.has_document
     (Api.committed (fst (Api.serve (Api.create_document document) env w)))
     (Api.uuid4 env) = true
   ∧ ∃ detail,
       snd (Api.serve (Api.create_document document) env w)
       = Api.Error 500 detail)
  ∧ (Api.raises env Api.PgRollback = None →
     ∃ cause,
       Spec.first_failure env document = Some cause
       ∧ snd (Api.serve (Api.create_document document) env w)
         = Api.Error 500 ("Failed to process document: " +:+ cause))
  ∧ (is_Some (Api.raises env Api.PgRollback) →
     snd (Api.serve (Api.create_document document) env w)
     = Api.Error 500 "Internal Server Error").
Proof.
  intros Hcommits Hfail. split.
  - by apply (create_degraded env w document Hcommits msg).
  - by apply (create_degraded_detail env w document Hcommits msg).
Qed.

Lemma create_failure_after_commit_witness :
  Pg.has_document
    (Api.committed
       (fst (Api.serve (Api.create_document Scenario.hello)
               Scenario.env_index_down Scenario.w_empty))) "u" = true
  ∧ snd (Api.serve (Api.create_document Scenario.hello)
           Scenario.env_index_down Scenario.w_empty)
    = Api.Error 500 "Failed to process document: index down".
Proof.
  destruct (create_failure_after_commit Scenario.env_index_down
              Scenario.w_empty Scenario.hello "index down")
    as ((Hrow & _) & Hdetail & _).
  - repeat split; try reflexivity; cbn; apply not_elem_of_nil.
  - right. reflexivity.
  - split; [exact Hrow|].
    destruct (Hdetail eq_refl) as (cause & Hcause & Hanswer).
    injection Hcause as <-. exact Hanswer.
Defined.

(** C6 (the claim fails).  A create with an empty filename and an empty
    media type is stored, indexed and returned. *)
Lemma create_nameless_is_stored :
  DocumentCreate.filename Scenario.nameless = ""
  ∧ DocumentCreate.mimeType Scenario.nameless = ""
  ∧ snd (Api.serve (Api.create_document Scenario.nameless)
           Scenario.env_quiet Scenario.w_empty)
    = Api.Ok
        (Document.mk "u" "" "hello world" "" 41 [""; "media"; "file"]
           (Some (Annotator.mkAiData [""; "media"; "file"]
                    " file uploaded to OmniMind"))
           None)
  ∧ Pg.has_document
      (Api.committed
         (fst (Api.serve (Api.create_document Scenario.nameless)
                 Scenario.env_quiet Scenario.w_empty))) "u" = true
  ∧ Chroma.has_id
      (Api.collection
         (fst (Api.serve (Api.create_document Scenario.nameless)
                 Scenario.env_quiet Scenario.w_empty))) "u" = true.
Proof. split_and!; by vm_compute. Qed.

(** C6 (amended).  An empty filename or media type is not rejected: when
    the generated id is new and no call raises, the create returns the
    document and the store holds its row. *)
Theorem create_accepts_empty_names
    (env : Api.Env) (w : Api.World) (document : DocumentCreate.t) :
  DocumentCreate.filename document = ""
  ∨ DocumentCreate.mimeType document = "" →
  Spec.commits env w document →
  Api.raises env (Api.ModelEncode (Spec.text_to_embed document)) = None →
  Api.raises env (Api.ChromaAdd (Api.uuid4 env)) = None →
  Api.raises env (Api.RedisSetex ("document:" +:+ Api.uuid4 env)) = None →
  Pg.has_document
    (Api.committed (fst (Api.serve (Api.create_document document) env w)))
    (Api.uuid4 env) = true
  ∧ snd (Api.serve (Api.create_document document) env w)
    = Api.Ok (Spec.created env document).
Proof. intros _. apply create_success. Qed.

Lemma create_accepts_empty_names_witness :
  Pg.has_document
    (Api.committed
       (fst (Api.serve (Api.create_document Scenario.nameless)
               Scenario.env_quiet Scenario.w_empty))) "u" = true
  ∧ snd (Api.serve (Api.create_document Scenario.nameless)
           Scenario.env_quiet Scenario.w_empty)
    = Api.Ok (Spec.created Scenario.env_quiet Scenario.nameless).
Proof.
  apply (create_accepts_empty_names Scenario.env_quiet Scenario.w_empty
           Scenario.nameless).
  - left. reflexivity.
  - repeat split; try reflexivity; cbn; apply not_elem_of_nil.
  - reflexivity.
  - reflexivity.
  - reflexivity.
Defined.

(** C7 (the claim fails).  The cache raises: the caller gets a 500
    although the row is committed and indexed. *)
Lemma create_cache_failure_is_error :
  snd (Api.serve (Api.create_document Scenario.hello)
         Scenario.env_cache_down Scenario.w_empty)
  = Api.Error 500 "Failed to process document: cache down"
  ∧ Pg.has_document
      (Api.committed
         (fst (Api.serve (Api.create_document Scenario.hello)
                 Scenario.env_cache_down Scenario.w_empty))) "u" = true
  ∧ Chroma.has_id
      (Api.collection
         (fst (Api.serve (Api.create_document Scenario.hello)
                 Scenario.env_cache_down Scenario.w_empty))) "u" = true.
Proof. split_and!; by vm_compute. Qed.

(** C7 (amended).  When the cache step of a create raises, the failure
    reaches the caller as a 500 error; the row stays committed and the
    index entry stays in place. *)
Theorem create_cache_failure_surfaces
    (env : Api.Env) (w : Api.World) (document : DocumentCreate.t)
    (msg : string) :
  Spec.commits env w document →
  Api.raises env (Api.ModelEncode (Spec.text_to_embed document)) = None →
  Api.raises env (Api.ChromaAdd (Api.uuid4 env)) = None →
  Api.raises env (Api.RedisSetex ("document:" +:+ Api.uuid4 env)) = Some msg →
  Pg.has_document
    (Api.committed (fst (Api.serve (Api.create_document document) env w)))
    (Api.uuid4 env) = true
  ∧ Chroma.has_id
      (Api.collection (fst (Api.serve (Api.create_document document) env w)))
      (Api.uuid4 env) = true
  ∧ ∃ detail,
      snd (Api.serve (Api.create_document document) env w)
      = Api.Error 500 detail.
Proof. intros Hcommits. by apply create_cache_failure. Qed.

Lemma create_cache_failure_surfaces_witness :
  Pg.has_document
    (Api.committed
       (fst (Api.serve (Api.create_document Scenario.hello)
               Scenario.env_cache_down Scenario.w_empty))) "u" = true
  ∧ Chroma.has_id
      (Api.collection
         (fst (Api.serve (Api.create_document Scenario.hello)
                 Scenario.env_cache_down Scenario.w_empty))) "u" = true
  ∧ ∃ detail,
      snd (Api.serve (Api.create_document Scenario.hello)
             Scenario.env_cache_down Scenario.w_empty)
      = Api.Error 500 detail.
Proof.
  apply (create_cache_failure_surfaces Scenario.env_cache_down
           Scenario.w_empty Scenario.hello "cache down").
  - repeat split; try reflexivity; cbn; apply not_elem_of_nil.
  - reflexivity.
  - reflexivity.
  - reflexivity.
Defined.

(** ** Search *)

Section search.
Import Api Spec.
Context (env : Env).

Lemma to_document_inv (similarity : M (option Q)) j w w' d :
  to_document j similarity env w = (w', Return d) →
  ∃ s, similarity env w = (w', Return s) ∧ d = document_of s j.
Proof.
  unfold to_document, document_of, isoformat, validate_str, tags_field.
  cbv zeta. rewrite run_bind.
  destruct (Pg.created_at (Pg.row j)) as [stamp|]; [|done]. run.
  destruct (Pg.agg j) as [|[tag|] agg] eqn:Hagg; [done|..]; run;
    (destruct (similarity env w) as [w1 [s|e]]; [|done]);
    cbn beta iota; rewrite run_bind;
    (destruct (Pg.mime_type (Pg.row j)) as [mime|]; [|done]);
    run; intros [= <- <-]; eauto.
Qed.

Lemma item_some_inv (l : list Q) i w w' s :
  (x ← item l i; mret (Some x)) env w = (w', Return s) →
  w' = w ∧ s = l !! i ∧ is_Some (l !! i).
Proof.
  unfold item. rewrite run_bind. destruct (l !! i) as [x|]; [|done].
  run. intros [= <- <-]. eauto.
Qed.

(** Position [k] of the response carries entry [i + k] of the scores. *)
Lemma attach_positions similarities l i w w' docs :
  for_enumerate i l (attach similarities) env w = (w', Return docs) →
  ∀ k d, docs !! k = Some d →
    ∃ j, l !! k = Some j
         ∧ d = document_of (similarities !! (i + k)) j
         ∧ is_Some (similarities !! (i + k)).
Proof.
  revert i w docs. induction l as [|j l IH]; intros i w docs.
  - cbn. intros [= <- <-] k d. by rewrite lookup_nil.
  - cbn [for_enumerate]. rewrite run_bind.
    destruct (attach similarities i j env w) as [w1 [d1|e]] eqn:Hdoc;
      [|done].
    apply to_document_inv in Hdoc as (s & Hs & ->).
    apply item_some_inv in Hs as (-> & -> & Hsome).
    rewrite run_bind.
    destruct (for_enumerate (S i) l _ env w) as [w2 [ds|e]] eqn:Hrest;
      [|done].
    run. intros [= <- <-] [|k] d; cbn.
    + intros [= <-]. exists j. rewrite Nat.add_0_r. eauto.
    + intros Hd. destruct (IH _ _ _ Hrest k d Hd) as (j' & ? & ? & ?).
      exists j'. by replace (i + S k) with (S i + k) by lia.
Qed.

Lemma search_documents_positions query w docs :
  snd (serve (search_documents query) env w) = Ok docs →
  let reply := Api.query env (collection w) (encode env query) 5 in
  ∀ k d, docs !! k = Some d →
    ∃ distance,
      Chroma.distances reply !! k = Some distance
      ∧ Document.similarity d = Some (1 - distance)%Q.
Proof.
  unfold serve, search_documents, try_except, model_encode, chroma_query,
    pg_select_in, call, raise, ask, get, mbind, M_bind, mret, M_ret.
  destruct (raises env (ModelEncode query)); [done|].
  destruct (raises env ChromaQuery); [done|].
  cbn [collection with_call].
  set (reply := Api.query env (collection w) (encode env query) 5).
  destruct (Chroma.ids reply) as [|i ids] eqn:Hids.
  { intros [= <-] k d. by rewrite lookup_nil. }
  destruct (raises env (PgSelectIn (i :: ids))); [done|].
  cbn [session with_call].
  match goal with
  | |- context [for_enumerate 0 ?l ?f env ?w1] =>
      change f with (attach ((λ distance, 1 - distance)%Q
                               <$> Chroma.distances reply));
      destruct (for_enumerate 0 l
                  (attach ((λ distance, 1 - distance)%Q
                             <$> Chroma.distances reply)) env w1)
        as [w2 [ds|e]] eqn:Hloop
  end; [|done].
  intros [= <-] k d Hd.
  destruct (attach_positions _ _ _ _ _ _ Hloop k d Hd) as (j & _ & -> & Hs).
  cbn in *. rewrite list_lookup_fmap in *.
  destruct (Chroma.distances reply !! k) as [distance|]; [|by destruct Hs].
  eauto.
Qed.

Lemma select_in_perm ids t :
  Pg.select_in ids t
  ≡ₚ filter (λ j, Pg.id (Pg.row j) ∈ ids) (Pg.select_grouped t).
Proof. apply merge_sort_Permutation. Qed.

Lemma elem_of_select_in ids t j :
  j ∈ Pg.select_in ids t ↔ Pg.id (Pg.row j) ∈ ids ∧ j ∈ Pg.select_grouped t.
Proof. by rewrite select_in_perm, list_elem_of_filter. Qed.





End search.

(** The response keeps the index's scores in the index's order, whatever
    documents they end up on: over a reply sorted by distance the
    similarity values never increase along the response. *)

Lemma Sorted_adjacent {A} (R : relation A) (l : list A) :
  Sorted R l ↔ ∀ k a b, l !! k = Some a → l !! S k = Some b → R a b.
Proof.
  split.
  - induction 1 as [|x l _ IH Hhd]; intros k a b; [by rewrite lookup_nil|].
    destruct k as [|k]; cbn.
    + intros [= <-] Hb. destruct Hhd as [|y l Hxy]; [done|].
      by injection Hb as <-.
    + apply IH.
  - induction l as [|x l IH]; intros Hadj; constructor.
    + apply IH. intros k a b. apply (Hadj (S k)).
    + destruct l as [|y l]; constructor. by apply (Hadj 0).
Qed.

Lemma search_similarities_non_increasing
    (env : Api.Env) (w : Api.World) (query : string)
    (docs : list Document.t) :
  Sorted Qle
    (Chroma.distances
       (Api.query env (Api.collection w) (Api.encode env query) 5)) →
  snd (Api.serve (Api.search_documents query) env w) = Api.Ok docs →
  Sorted (λ a b, ∃ sa sb, Document.similarity a = Some sa
                          ∧ Document.similarity b = Some sb
                          ∧ (sb <= sa)%Q) docs.
Proof.
  intros Hsorted Hok. apply Sorted_adjacent. intros k a b Ha Hb.
  destruct (search_documents_positions env query w docs Hok k a Ha)
    as (x & Hx & Hsa).
  destruct (search_documents_positions env query w docs Hok (S k) b Hb)
    as (y & Hy & Hsb).
  exists (1 - x)%Q, (1 - y)%Q. split_and!; [done|done|].
  rewrite Sorted_adjacent in Hsorted. specialize (Hsorted k x y Hx Hy). lra.
Qed.

(** C1 (the code departs from the claim).  The index ranks [a] at
    distance 1/4 and [b] at distance 1/2, but only [b] is in the store:
    [b] is returned with 3/4, the score computed for [a]; its own is
    1/2. *)
Theorem search_attaches_score_by_position :
  let reply :=
    Api.query Scenario.env_rank_ab [] (Api.encode Scenario.env_rank_ab "q") 5 in
  Spec.score_of "a" (Chroma.ids reply) (Chroma.distances reply)
  = Some (3 # 4)%Q
  ∧ Spec.score_of "b" (Chroma.ids reply) (Chroma.distances reply)
    = Some (1 # 2)%Q
  ∧ snd (Api.serve (Api.search_documents "q") Scenario.env_rank_ab
           Scenario.w_b_dangling)
    = Api.Ok
        [Document.mk "b" "b.txt" "beta" "text/plain" 10 ["beta"] None
           (Some (3 # 4)%Q)].
Proof. split_and!; by vm_compute. Qed.

(** C2 (the code departs from the claim).  Both [a] and [b] are stored
    and the index ranks [b] before [a]; the response lists [a] before
    [b], as it does when the index ranks [a] first: the rows come back
    in the order of their ids and are never put in rank order. *)
Theorem search_returns_rows_in_id_order :
  Chroma.ids
    (Api.query Scenario.env_rank_ba (Api.collection Scenario.w_ba)
       (Api.encode Scenario.env_rank_ba "q") 5)
  = ["b"; "a"]
  ∧ (∃ docs,
       snd (Api.serve (Api.search_documents "q") Scenario.env_rank_ba
              Scenario.w_ba) = Api.Ok docs
       ∧ Document.id <$> docs = ["a"; "b"])
  ∧ (∃ docs,
       snd (Api.serve (Api.search_documents "q") Scenario.env_rank_ab
              Scenario.w_ba) = Api.Ok docs
       ∧ Document.id <$> docs = ["a"; "b"]).
Proof.
  split; [done|]. split; eexists; (split; [by vm_compute|done]).
Qed.

(** C8 (the claim fails).  A hit at cosine distance 3/2 is returned with
    similarity -1/2, below the claimed range. *)
Lemma search_similarity_negative :
  snd (Api.serve (Api.search_documents "q") Scenario.env_far Scenario.w_ba)
  = Api.Ok
      [Document.mk "b" "b.txt" "beta" "text/plain" 10 ["beta"] None
         (Some (-1 # 2)%Q)]
  ∧ ¬ Spec.within 0 2
        (Document.mk "b" "b.txt" "beta" "text/plain" 10 ["beta"] None
           (Some (-1 # 2)%Q)).
Proof. split; [by vm_compute|]. intros [Hlo _]. by vm_compute in Hlo. Qed.

(** C8 (amended).  Every similarity attached to a search result is one
    minus a distance reported by the index (the one at the document's
    position in the response); when the index reports distances in
    [0, 2], it lies in [-1, 1]. *)
Theorem search_similarity_range
    (env : Api.Env) (w : Api.World) (query : string)
    (docs : list Document.t) :
  snd (Api.serve (Api.search_documents query) env w) = Api.Ok docs →
  let reply :=
    Api.query env (Api.collection w) (Api.encode env query) 5 in
  (∀ k d, docs !! k = Some d →
     ∃ distance,
       Chroma.distances reply !! k = Some distance
       ∧ Document.similarity d = Some (1 - distance)%Q)
  ∧ (Forall (λ x, (0 <= x)%Q ∧ (x <= 2)%Q) (Chroma.distances reply) →
     Forall (Spec.within (-1) 1) docs).
Proof.
  intros Hok reply. split.
  - apply (search_documents_positions env query w docs Hok).
  - intros Hrange. apply Forall_lookup. intros k d Hd.
    destruct (search_documents_positions env query w docs Hok k d Hd)
      as (distance & Hdist & Hsim).
    unfold Spec.within. rewrite Hsim. fold reply in Hdist.
    rewrite Forall_lookup in Hrange. destruct (Hrange k distance Hdist). lra.
Qed.

Lemma search_similarity_range_witness :
  Forall (Spec.within (-1) 1)
    [Document.mk "b" "b.txt" "beta" "text/plain" 10 ["beta"] None
       (Some (-1 # 2)%Q)].
Proof.
  destruct (search_similarity_range Scenario.env_far Scenario.w_ba "q"
              [Document.mk "b" "b.txt" "beta" "text/plain" 10 ["beta"] None
                 (Some (-1 # 2)%Q)])
    as [_ Hrange].
  - by vm_compute.
  - apply Hrange. cbn. repeat constructor; by vm_compute.
Defined.

(** ** The worked example of the interface description *)

Example create_hello_world :
  snd (Api.serve (Api.create_document Scenario.hello) Scenario.env_quiet
         Scenario.w_empty)
  = Api.Ok
      (Document.mk "u" "a.txt" "hello world" "text/plain" 41
         ["world"; "hello"]
         (Some (Annotator.mkAiData ["world"; "hello"] "hello world")) None).
Proof. by vm_compute. Qed.

Example annotate_png :
  Annotator.generate_tags_and_summary "" "image/png"
  = Annotator.mkAiData ["PNG"; "media"; "file"] "PNG file uploaded to OmniMind".
Proof. by vm_compute. Qed.

Example split_examples :
  Py.split "  The quick  brown fox " = ["The"; "quick"; "brown"; "fox"]
  ∧ Py.split_on "/" "image/svg+xml" = ["image"; "svg+xml"]
  ∧ Py.split_on "/" "" = [""]
  ∧ Py.lower "Hello World" = "hello world".
Proof. by vm_compute. Qed.

(** * Further properties of the handlers *)

(** ** Rules of the program logic *)

Section rules.
Import Api Logic.
Context (env : Env) (P : World → Prop).

Lemma keeps_ret {A} (a : A) : keeps env P (mret a : M A).
Proof. by intros w HP. Qed.

Lemma keeps_raise {A} e : keeps env P (raise e : M A).
Proof. by intros w HP. Qed.

Lemma keeps_ask : keeps env P ask.
Proof. by intros w HP. Qed.

Lemma keeps_get : keeps env P get.
Proof. by intros w HP. Qed.

Lemma keeps_call c : blind P → keeps env P (call c).
Proof.
  intros Hblind w HP. unfold call.
  destruct (raises env c); cbn; by apply Hblind.
Qed.

Lemma keeps_modify f : (∀ w, P w → P (f w)) → keeps env P (modify f).
Proof. intros Hf w HP. by apply Hf. Qed.

Lemma keeps_bind {A B} (m : M A) (k : A → M B) :
  keeps env P m → (∀ a, keeps env P (k a)) → keeps env P (m ≫= k).
Proof.
  intros Hm Hk w HP. specialize (Hm w HP). rewrite run_bind.
  destruct (m env w) as [w1 [a|e]]; cbn in *; [by apply Hk|done].
Qed.

Lemma keeps_try {A} (body : M A) handler :
  keeps env P body → (∀ e, keeps env P (handler e)) →
  keeps env P (try_except body handler).
Proof.
  intros Hbody Hhandler w HP. specialize (Hbody w HP). unfold try_except.
  destruct (body env w) as [w1 [a|e]]; cbn in *; [done|by apply Hhandler].
Qed.

Lemma keeps_for_each {A} (l : list A) f :
  (∀ x, keeps env P (f x)) → keeps env P (for_each l f).
Proof.
  intros Hf. induction l as [|x l IH]; [apply keeps_ret|].
  cbn [for_each]. by apply keeps_bind.
Qed.

Lemma keeps_for_enumerate {A B} (l : list A) (f : nat → A → M B) i :
  (∀ k x, keeps env P (f k x)) → keeps env P (for_enumerate i l f).
Proof.
  intros Hf. revert i. induction l as [|x l IH]; intros i; [apply keeps_ret|].
  cbn [for_enumerate]. apply keeps_bind; [done|]. intros b.
  apply keeps_bind; [done|]. intros bs. apply keeps_ret.
Qed.

Lemma serve_world {A} (handler : M A) w :
  (serve handler env w).1 = (handler env w).1.
Proof. unfold serve. by destruct (handler env w) as [w' [a|[msg|code d]]]. Qed.

End rules.

(** ** The declared constraints are an invariant *)

Section constraints.
Import Api Logic.

Lemma constraints_insert_document r t t' :
  Pg.insert_document r t = Some t' → constraints t → constraints t'.
Proof.
  unfold Pg.insert_document, Pg.has_document. case_bool_decide as Hnew; [done|].
  intros [= <-] (Hpk & Huniq & Hfk). split_and!; cbn.
  - rewrite fmap_app. apply NoDup_app. split_and!; [done| |apply NoDup_singleton].
    intros i Hi. cbn. rewrite list_elem_of_singleton. by intros ->.
  - done.
  - eapply Forall_impl; [exact Hfk|]. intros r' Hr'. cbn in Hr'.
    rewrite fmap_app, elem_of_app. by left.
Qed.

Lemma constraints_insert_tag r t t' :
  Pg.insert_tag r t = Some t' → constraints t → constraints t'.
Proof.
  unfold Pg.insert_tag, Pg.has_document.
  case_bool_decide as Hdoc; [|done]. case_bool_decide as Hnew; [done|].
  intros [= <-] (Hpk & Huniq & Hfk). split_and!; cbn.
  - done.
  - apply NoDup_app. split_and!; [done| |apply NoDup_singleton].
    intros r' Hr'. rewrite list_elem_of_singleton. by intros ->.
  - apply Forall_app. split; [done|]. by apply Forall_singleton.
Qed.

Lemma constraints_delete i t :
  constraints t → constraints (Pg.delete_document i t).
Proof.
  intros (Hpk & Huniq & Hfk). unfold Pg.delete_document. split_and!; cbn.
  - eapply sublist_NoDup; [exact Hpk|].
    apply fmap_sublist, sublist_filter.
  - by apply NoDup_filter.
  - apply Forall_forall. intros r [Hne Hr]%list_elem_of_filter.
    rewrite Forall_forall in Hfk.
    destruct (proj1 (list_elem_of_fmap _ _ _) (Hfk r Hr)) as (d & Hid & Hd).
    apply list_elem_of_fmap. exists d. split; [done|].
    apply list_elem_of_filter. split; [congruence|done].
Qed.

Context (env : Env).

Lemma blind_consistent : blind consistent.
Proof. by intros c w. Qed.

Lemma keeps_pg_insert_document r : keeps env consistent (pg_insert_document r).
Proof.
  intros w [Hc Hs]. unfold pg_insert_document, call, raise, modify, get,
    mbind, M_bind.
  destruct (raises env _); [done|]. cbn [session with_call].
  destruct (Pg.insert_document r (session w)) as [t|] eqn:Ht; [|done].
  split; [done|]. cbn. by eapply constraints_insert_document.
Qed.

Lemma keeps_pg_insert_tag doc_id tag :
  keeps env consistent (pg_insert_tag doc_id tag).
Proof.
  intros w [Hc Hs]. unfold pg_insert_tag, call, raise, modify, get,
    mbind, M_bind.
  destruct (raises env _); [done|]. cbn [session with_call].
  destruct (Pg.insert_tag _ (session w)) as [t|] eqn:Ht; [|done].
  split; [done|]. cbn. by eapply constraints_insert_tag.
Qed.

Lemma keeps_pg_delete_document doc_id :
  keeps env consistent (pg_delete_document doc_id).
Proof.
  apply keeps_bind; [apply keeps_call, blind_consistent|]. intros _.
  apply keeps_modify. intros w [Hc Hs]. split; [done|].
  by apply constraints_delete.
Qed.

Lemma keeps_pg_commit : keeps env consistent pg_commit.
Proof.
  apply keeps_bind; [apply keeps_call, blind_consistent|]. intros _.
  apply keeps_modify. by intros w [Hc Hs].
Qed.

Lemma keeps_pg_rollback : keeps env consistent pg_rollback.
Proof.
  apply keeps_bind; [apply keeps_call, blind_consistent|]. intros _.
  apply keeps_modify. by intros w [Hc Hs].
Qed.

(** A step that leaves both views of the database alone. *)
Lemma keeps_outside_pg (c : Call) (f : World → World) :
  (∀ w, committed (f w) = committed w ∧ session (f w) = session w) →
  keeps env consistent (call c ;; modify f).
Proof.
  intros Hf. apply keeps_bind; [apply keeps_call, blind_consistent|].
  intros _. apply keeps_modify. intros w [Hc Hs]. unfold consistent.
  destruct (Hf w) as [-> ->]. done.
Qed.

End constraints.

(** X1.  A create keeps the declared constraints (primary key, unique
    tags per document, foreign key) in both the committed tables and the
    connection's view, whichever of its calls raise. *)
Theorem create_document_keeps_constraints
    (env : Api.Env) (w : Api.World) (document : DocumentCreate.t) :
  Logic.consistent w →
  Logic.consistent (Api.serve (Api.create_document document) env w).1.
Proof.
  intros Hw. rewrite serve_world. revert w Hw.
  change (Logic.keeps env Logic.consistent (Api.create_document document)).
  unfold Api.create_document. cbv zeta.
  apply keeps_bind; [apply keeps_ask|]. intros env'.
  apply keeps_try.
  - apply keeps_bind; [apply keeps_pg_insert_document|]. intros _.
    apply keeps_bind.
    { apply keeps_for_each. intros tag. apply keeps_pg_insert_tag. }
    intros _. apply keeps_bind; [apply keeps_pg_commit|]. intros _.
    apply keeps_bind.
    { apply keeps_bind; [apply keeps_call, blind_consistent|]. intros _.
      apply keeps_bind; [apply keeps_ask|]. intros ?. apply keeps_ret. }
    intros embedding.
    apply keeps_bind; [by apply keeps_outside_pg|]. intros _.
    apply keeps_bind; [by apply keeps_outside_pg|]. intros _.
    apply keeps_ret.
  - intros e. apply keeps_bind; [apply keeps_pg_rollback|]. intros _.
    apply keeps_raise.
Qed.

Lemma create_document_keeps_constraints_witness :
  Logic.consistent
    (Api.serve (Api.create_document Scenario.hello) Scenario.env_index_down
       Scenario.w_ba).1.
Proof.
  apply create_document_keeps_constraints.
  apply (bool_decide_unpack _). by vm_compute.
Defined.

(** X2.  A delete keeps the declared constraints as well: the cascade
    removes the tag rows together with the document row. *)
Theorem delete_document_keeps_constraints
    (env : Api.Env) (w : Api.World) (doc_id : string) :
  Logic.consistent w →
  Logic.consistent (Api.serve (Api.delete_document doc_id) env w).1.
Proof.
  intros Hw. rewrite serve_world. revert w Hw.
  change (Logic.keeps env Logic.consistent (Api.delete_document doc_id)).
  unfold Api.delete_document. apply keeps_try.
  - apply keeps_bind; [apply keeps_pg_delete_document|]. intros _.
    apply keeps_bind; [apply keeps_pg_commit|]. intros _.
    apply keeps_bind; [by apply keeps_outside_pg|]. intros _.
    apply keeps_bind; [by apply keeps_outside_pg|]. intros _.
    apply keeps_ret.
  - intros e. apply keeps_bind; [apply keeps_pg_rollback|]. intros _.
    apply keeps_raise.
Qed.

Lemma delete_document_keeps_constraints_witness :
  Logic.consistent
    (Api.serve (Api.delete_document "a") Scenario.env_quiet Scenario.w_ba).1.
Proof.
  apply delete_document_keeps_constraints.
  apply (bool_decide_unpack _). by vm_compute.
Defined.

(** ** The reading handlers *)

Section readers.
Import Api Logic.
Context (env : Env) (w0 : World).

Lemma blind_same : blind (same w0).
Proof. by intros c w. Qed.

Lemma keeps_select {A} (c : Call) (f : World → A) :
  keeps env (same w0) (call c ;; w ← get; mret (f w)).
Proof.
  apply keeps_bind; [apply keeps_call, blind_same|]. intros _.
  apply keeps_bind; [apply keeps_get|]. intros w. apply keeps_ret.
Qed.

Lemma keeps_tags_field agg : keeps env (same w0) (tags_field agg).
Proof.
  destruct agg as [|[s|] agg]; [apply keeps_raise|apply keeps_ret..].
Qed.

Lemma keeps_to_document j (similarity : M (option Q)) :
  keeps env (same w0) similarity →
  keeps env (same w0) (to_document j similarity).
Proof.
  intros Hsimilarity. unfold to_document. cbv zeta.
  apply keeps_bind.
  { unfold isoformat. destruct (Pg.created_at _);
      [apply keeps_ret|apply keeps_raise]. }
  intros created_at. apply keeps_bind; [apply keeps_tags_field|].
  intros tags. apply keeps_bind; [done|]. intros s. apply keeps_bind.
  { unfold validate_str. destruct (Pg.mime_type _);
      [apply keeps_ret|apply keeps_raise]. }
  intros mime_type. apply keeps_ret.
Qed.

Lemma keeps_get_documents : keeps env (same w0) get_documents.
Proof.
  apply keeps_bind; [apply keeps_select|]. intros rows.
  apply keeps_for_enumerate. intros k j.
  apply keeps_to_document, keeps_ret.
Qed.

Lemma keeps_search_documents query : keeps env (same w0) (search_documents query).
Proof.
  apply keeps_try; [|intros e; apply keeps_raise].
  apply keeps_bind.
  { apply keeps_bind; [apply keeps_call, blind_same|]. intros _.
    apply keeps_bind; [apply keeps_ask|]. intros ?. apply keeps_ret. }
  intros query_embedding. apply keeps_bind.
  { apply keeps_bind; [apply keeps_call, blind_same|]. intros _.
    apply keeps_bind; [apply keeps_ask|]. intros ?.
    apply keeps_bind; [apply keeps_get|]. intros ?. apply keeps_ret. }
  intros results. destruct (Chroma.ids results); [apply keeps_ret|].
  apply keeps_bind; [apply keeps_select|]. intros rows.
  apply keeps_for_enumerate. intros k j. apply keeps_to_document.
  apply keeps_bind; [|intros x; apply keeps_ret].
  unfold item. destruct (_ !! k); [apply keeps_ret|apply keeps_raise].
Qed.

Lemma keeps_get_stats faults : keeps env (same w0) (Stats.get_stats faults).
Proof.
  assert (∀ c, keeps env (same w0) (Stats.fetch_count faults c)) as Hfetch.
  { intros c w Hw. unfold Stats.fetch_count. by destruct (faults c). }
  apply keeps_bind; [apply Hfetch|]. intros doc_count.
  apply keeps_bind; [apply Hfetch|]. intros tag_count. apply keeps_ret.
Qed.

End readers.

(** X3.  The listing, the search and the statistics only read: whatever
    they return or raise, the committed tables, the connection's view,
    the index and the cache are the same afterwards. *)
Theorem readers_change_no_store
    (env : Api.Env) (w : Api.World) (query : string)
    (faults : Stats.Count → option string) :
  Logic.stores (Api.serve Api.get_documents env w).1 = Logic.stores w
  ∧ Logic.stores (Api.serve (Api.search_documents query) env w).1
    = Logic.stores w
  ∧ Logic.stores (Api.serve (Stats.get_stats faults) env w).1
    = Logic.stores w.
Proof.
  rewrite !serve_world. split_and!.
  - by apply (keeps_get_documents env w w).
  - by apply (keeps_search_documents env w query w).
  - by apply (keeps_get_stats env w faults w).
Qed.

(** ** A create that does not get past its commit *)

Section before_commit.
Import Api Logic.
Context (env : Env) (w0 : World).

Lemma blind_untouched : blind (untouched w0).
Proof. by intros c w. Qed.

Lemma fails_bind {A B} P (m : M A) (k : A → M B) :
  keeps env P m → (∀ a, fails env P (k a)) → fails env P (m ≫= k).
Proof.
  intros Hm Hk w HP. specialize (Hm w HP). rewrite run_bind.
  destruct (m env w) as [w1 [a|e]]; cbn in *; [by apply Hk|eauto].
Qed.

Lemma fails_first {A B} P (m : M A) (k : A → M B) :
  fails env P m → fails env P (m ≫= k).
Proof.
  intros Hm w HP. destruct (Hm w HP) as [HP' [e He]]. rewrite run_bind.
  destruct (m env w) as [w1 r]; cbn in *. subst r. eauto.
Qed.

Lemma keeps_untouched_insert_document r :
  keeps env (untouched w0) (pg_insert_document r).
Proof.
  intros w Hw. unfold pg_insert_document, call, raise, modify, get,
    mbind, M_bind.
  destruct (raises env _); [done|]. cbn [session with_call].
  by destruct (Pg.insert_document r (session w)).
Qed.

Lemma keeps_untouched_insert_tag doc_id tag :
  keeps env (untouched w0) (pg_insert_tag doc_id tag).
Proof.
  intros w Hw. unfold pg_insert_tag, call, raise, modify, get, mbind, M_bind.
  destruct (raises env _); [done|]. cbn [session with_call].
  by destruct (Pg.insert_tag _ (session w)).
Qed.

Lemma fails_commit {B} (k : M B) msg :
  raises env PgCommit = Some msg → fails env (untouched w0) (pg_commit ;; k).
Proof.
  intros Hcommit w Hw. unfold pg_commit, call, mbind, M_bind.
  rewrite Hcommit. cbn. eauto.
Qed.

Lemma fails_insert_document {B} r (k : M B) msg :
  raises env (PgInsertDocument (Pg.id r)) = Some msg →
  fails env (untouched w0) (pg_insert_document r ;; k).
Proof.
  intros Hraise w Hw. unfold pg_insert_document, call, mbind, M_bind.
  rewrite Hraise. cbn. eauto.
Qed.

(** The except clause of [create_document] and [delete_document]. *)
Lemma handler_outcome {A} detail w :
  let out := (pg_rollback ;; raise (HTTPException 500 detail) : M A) env w in
  durable out.1 = durable w
  ∧ (∃ e, out.2 = Raise e
          ∧ (e = HTTPException 500 detail ∨ ∃ msg, e = PyExc msg))
  ∧ (raises env PgRollback = None → session out.1 = committed w).
Proof.
  unfold pg_rollback, call, modify, raise, mbind, M_bind.
  destruct (raises env PgRollback) as [msg|]; cbn; split_and!; eauto.
  done.
Qed.

Lemma fails_duplicate {B} r (k : M B) w :
  Pg.has_document (session w) (Pg.id r) = true →
  let out := (pg_insert_document r ;; k) env w in
  durable out.1 = durable w ∧ ∃ e, out.2 = Raise e.
Proof.
  intros Hdup. unfold pg_insert_document, Pg.insert_document, call, raise,
    modify, get, mbind, M_bind.
  destruct (raises env _); cbn; [eauto|]. rewrite Hdup. cbn. eauto.
Qed.

(** A try block that raises, under the except clause of the writers. *)
Lemma try_rollback_outcome {A} (body : M A) (detail : Exc → string) w :
  (durable (body env w).1 = durable w ∧ ∃ e, (body env w).2 = Raise e) →
  let out :=
    try_except body
      (λ e, pg_rollback ;; raise (HTTPException 500 (detail e))) env w in
  durable out.1 = durable w
  ∧ ((∃ d, out.2 = Raise (HTTPException 500 d))
     ∨ ∃ msg, out.2 = Raise (PyExc msg))
  ∧ (raises env PgRollback = None → session out.1 = committed w).
Proof.
  intros [Hsame [e He]]. unfold try_except.
  destruct (body env w) as [w1 r]; cbn in *. subst r.
  destruct (handler_outcome (A := A) (detail e) w1)
    as (Hd & (e' & He' & Hkind) & Hs).
  cbn in *. split_and!.
  - congruence.
  - rewrite He'. destruct Hkind as [->|[msg ->]]; eauto.
  - intros Hquiet. rewrite (Hs Hquiet). unfold durable in Hsame. congruence.
Qed.

Lemma serve_raised {A} (handler : M A) w :
  (∃ d, (handler env w).2 = Raise (HTTPException 500 d))
  ∨ (∃ msg, (handler env w).2 = Raise (PyExc msg)) →
  ∃ detail, (serve handler env w).2 = Error 500 detail.
Proof.
  unfold serve. destruct (handler env w) as [w1 r]; cbn.
  intros [[d ->]|[msg ->]]; eauto.
Qed.

End before_commit.

(** X4.  When the generated id is already taken, or the insert or the
    commit raises, a create answers 500 and leaves the committed tables,
    the index and the cache as they were; if the rollback goes through,
    the connection's view is the committed tables again. *)
Theorem create_failure_before_commit_changes_nothing
    (env : Api.Env) (w : Api.World) (document : DocumentCreate.t)
    (msg : string) :
  Pg.has_document (Api.session w) (Api.uuid4 env) = true
  ∨ Api.raises env (Api.PgInsertDocument (Api.uuid4 env)) = Some msg
  ∨ Api.raises env Api.PgCommit = Some msg →
  let out := Api.serve (Api.create_document document) env w in
  Logic.durable out.1 = Logic.durable w
  ∧ (∃ detail, out.2 = Api.Error 500 detail)
  ∧ (Api.raises env Api.PgRollback = None →
     Api.session out.1 = Api.committed w).
Proof.
  intros Hcause out. subst out. rewrite serve_world.
  assert (let out := Api.create_document document env w in
          Logic.durable out.1 = Logic.durable w
          ∧ ((∃ d, out.2 = Api.Raise (Api.HTTPException 500 d))
             ∨ ∃ m, out.2 = Api.Raise (Api.PyExc m))
          ∧ (Api.raises env Api.PgRollback = None →
             Api.session out.1 = Api.committed w)) as (Hd & Hr & Hs).
  { unfold Api.create_document. rewrite run_bind, run_ask.
    cbn beta iota zeta. apply try_rollback_outcome.
    destruct Hcause as [Hdup|[Hinsert|Hcommit]].
    - by apply fails_duplicate.
    - by apply (fails_insert_document env w _ _ msg).
    - apply (fails_bind env (Logic.untouched w));
        [apply keeps_untouched_insert_document| |done].
      intros _. apply fails_bind.
      { apply keeps_for_each. intros tag. apply keeps_untouched_insert_tag. }
      intros _. by apply (fails_commit env w _ msg). }
  split_and!; [done|by apply serve_raised|done].
Qed.

Lemma create_failure_before_commit_changes_nothing_witness :
  let out :=
    Api.serve (Api.create_document Scenario.hello)
      (Api.mkEnv "a" 40 41 (λ _, []) Scenario.no_reply Scenario.quiet)
      Scenario.w_ba in
  Logic.durable out.1 = Logic.durable Scenario.w_ba
  ∧ (∃ detail, out.2 = Api.Error 500 detail)
  ∧ (Api.raises
       (Api.mkEnv "a" 40 41 (λ _, []) Scenario.no_reply Scenario.quiet)
       Api.PgRollback = None →
     Api.session out.1 = Api.committed Scenario.w_ba).
Proof.
  apply (create_failure_before_commit_changes_nothing _ _ _ "").
  left. reflexivity.
Defined.

(** ** What the writers leave behind when nothing raises *)

Section outcomes.
Import Api Logic.
Context (env : Env).

Lemma delete_document_stores doc_id w :
  delete_succeeds env doc_id →
  delete_document doc_id env w
  = (mkWorld (Pg.delete_document doc_id (session w))
       (Pg.delete_document doc_id (session w))
       (Chroma.delete doc_id (collection w))
       (delete (cache_key doc_id) (cache w))
       (calls w ++ Spec.delete_plan doc_id),
     Return (mkSuccess true)).
Proof.
  unfold delete_succeeds, Spec.delete_plan. rewrite !Forall_cons.
  intros (Hpg & Hcommit & Hchroma & Hredis & _).
  unfold delete_document, try_except, pg_delete_document, pg_commit,
    chroma_delete, redis_delete, call, modify, mbind, M_bind, mret, M_ret.
  rewrite Hpg, Hcommit, Hchroma, Hredis.
  unfold with_cache, with_call, with_collection, with_committed,
    with_session. cbn. by rewrite <- !app_assoc.
Qed.

Lemma create_document_stores document w :
  create_succeeds env w document →
  create_document document env w
  = (mkWorld (committed (Spec.after_commit env document w))
       (committed (Spec.after_commit env document w))
       (Chroma.add (index_entry env document) (collection w))
       (<[cache_key (uuid4 env) := cache_entry env document]> (cache w))
       (calls (Spec.after_commit env document w)
        ++ [ModelEncode (Spec.text_to_embed document);
            ChromaAdd (uuid4 env); RedisSetex (cache_key (uuid4 env))]),
     Return (Spec.created env document)).
Proof.
  intros (Hcommits & Hmodel & Hindex & Hcache).
  unfold create_document. rewrite run_bind, run_ask.
  cbn beta iota zeta. unfold try_except.
  rewrite (create_database_part env _ document w Hcommits).
  fold (Spec.text_to_embed document).
  unfold model_encode, chroma_add, redis_setex, call, modify, ask,
    mbind, M_bind, mret, M_ret.
  rewrite Hmodel. cbn [Chroma.id]. unfold cache_key in Hcache.
  rewrite Hindex, Hcache.
  unfold with_cache, with_call, with_collection. cbn [calls committed
    session collection cache fst snd]. by rewrite <- !app_assoc.
Qed.

End outcomes.

Section outcome_facts.
Import Api Logic.
Context (env : Env).

Lemma serve_return {A} (handler : M A) w w' a :
  handler env w = (w', Return a) → serve handler env w = (w', Ok a).
Proof. unfold serve. by intros ->. Qed.

Lemma filter_all {A} (P : A → Prop) `{∀ x, Decision (P x)} (l : list A) :
  Forall P l → filter P l = l.
Proof.
  induction 1 as [|x l Hx _ IH]; [done|]. by rewrite filter_cons_True, IH.
Qed.

Lemma filter_none {A} (P : A → Prop) `{∀ x, Decision (P x)} (l : list A) :
  Forall (λ x, ¬ P x) l → filter P l = [].
Proof.
  induction 1 as [|x l Hx _ IH]; [done|]. by rewrite filter_cons_False, IH.
Qed.

Lemma fresh_documents t i :
  Spec.fresh t i → Forall (λ r, Pg.id r ≠ i) (Pg.documents t).
Proof.
  intros [Hdoc _]. apply Forall_forall. intros r Hr Heq. apply Hdoc.
  apply list_elem_of_fmap. eauto.
Qed.

Lemma fresh_tags t i :
  Spec.fresh t i → Forall (λ r, Pg.doc_id r ≠ i) (Pg.tags t).
Proof.
  intros [_ Htag]. apply Forall_forall. intros r Hr Heq. apply Htag.
  apply list_elem_of_fmap. eauto.
Qed.

Lemma chroma_delete_add e c :
  Chroma.has_id c (Chroma.id e) = false →
  Chroma.delete (Chroma.id e) (Chroma.add e c) = c.
Proof.
  intros Hnew. unfold Chroma.add, Chroma.delete. rewrite Hnew.
  rewrite filter_app, filter_cons_False by (intros Hne; by apply Hne).
  rewrite filter_nil, app_nil_r. apply filter_all, Forall_forall. intros e' He' Heq.
  apply bool_decide_eq_false_1 in Hnew. apply Hnew.
  apply list_elem_of_fmap. eauto.
Qed.

Lemma pg_delete_after_commit document w :
  Spec.fresh (session w) (uuid4 env) →
  Pg.delete_document (uuid4 env)
    (committed (Spec.after_commit env document w))
  = session w.
Proof.
  intros Hfresh. unfold Pg.delete_document, Spec.after_commit.
  cbn [committed Pg.documents Pg.tags]. rewrite !filter_app.
  rewrite (filter_all _ (Pg.documents _)) by by apply fresh_documents.
  rewrite (filter_all _ (Pg.tags _)) by by apply fresh_tags.
  rewrite filter_cons_False by (intros Hne; by apply Hne).
  rewrite filter_nil, filter_none, !app_nil_r; [by destruct (session w)|].
  apply Forall_fmap, Forall_true. intros tag Hne. by apply Hne.
Qed.

End outcome_facts.

(** X5.  A successful create caches the summary projection under
    [document:<id>] (other keys are untouched) and, when the id was not
    indexed before, appends one index entry whose stored text is at most
    1000 characters long. *)
Theorem create_fills_cache_and_index
    (env : Api.Env) (w : Api.World) (document : DocumentCreate.t) :
  Logic.create_succeeds env w document →
  let out := Api.serve (Api.create_document document) env w in
  Api.cache out.1 !! Logic.cache_key (Api.uuid4 env)
  = Some (Logic.cache_entry env document)
  ∧ (∀ key, key ≠ Logic.cache_key (Api.uuid4 env) →
       Api.cache out.1 !! key = Api.cache w !! key)
  ∧ (Chroma.has_id (Api.collection w) (Api.uuid4 env) = false →
     Api.collection out.1
     = Api.collection w ++ [Logic.index_entry env document])
  ∧ Py.len (Chroma.document (Logic.index_entry env document)) ≤ 1000.
Proof.
  intros Hsucc out. subst out.
  rewrite (serve_return env _ _ _ _ (create_document_stores env _ _ Hsucc)).
  cbn [fst Api.cache Api.collection]. split_and!.
  - apply lookup_insert_eq.
  - intros key Hkey. by apply lookup_insert_ne.
  - intros Hnew. unfold Chroma.add. cbn [Chroma.id Logic.index_entry].
    by rewrite Hnew.
  - apply len_slice_to.
Qed.

Lemma create_fills_cache_and_index_witness :
  Api.cache
    (Api.serve (Api.create_document Scenario.hello) Scenario.env_quiet
       Scenario.w_empty).1 !! "document:u"
  = Some (Redis.mkEntry 3600 "u" "a.txt" ["world"; "hello"] "hello world").
Proof.
  apply (create_fills_cache_and_index Scenario.env_quiet Scenario.w_empty
           Scenario.hello).
  repeat split; try reflexivity; cbn; apply not_elem_of_nil.
Defined.

(** X7.  Delete undoes create: creating a document under a new id and
    then deleting that id, with no call raising, leaves the tables, the
    index and the cache exactly as they were before the create. *)
Theorem delete_undoes_create
    (env env' : Api.Env) (w : Api.World) (document : DocumentCreate.t) :
  Logic.create_succeeds env w document →
  Logic.delete_succeeds env' (Api.uuid4 env) →
  Api.committed w = Api.session w →
  Chroma.has_id (Api.collection w) (Api.uuid4 env) = false →
  Api.cache w !! Logic.cache_key (Api.uuid4 env) = None →
  let created := Api.serve (Api.create_document document) env w in
  let deleted :=
    Api.serve (Api.delete_document (Api.uuid4 env)) env' created.1 in
  Logic.stores deleted.1 = Logic.stores w
  ∧ deleted.2 = Api.Ok (Api.mkSuccess true).
Proof.
  intros Hcreate Hdelete Hquiescent Hindex Hcache created deleted.
  subst created deleted.
  rewrite (serve_return env _ _ _ _ (create_document_stores env _ _ Hcreate)).
  cbn [fst].
  rewrite (serve_return env' _ _ _ _ (delete_document_stores env' _ _ Hdelete)).
  cbn [fst snd]. split; [|done].
  unfold Logic.stores. cbn [Api.committed Api.session Api.collection Api.cache].
  destruct Hcreate as ((Hfresh & _) & _).
  rewrite pg_delete_after_commit by done.
  rewrite (chroma_delete_add (Logic.index_entry env document)) by done.
  rewrite delete_insert_eq, delete_id by done. by rewrite Hquiescent.
Qed.

Lemma delete_undoes_create_witness :
  Logic.stores
    (Api.serve (Api.delete_document "u") Scenario.env_quiet
       (Api.serve (Api.create_document Scenario.hello) Scenario.env_quiet
          Scenario.w_ba).1).1
  = Logic.stores Scenario.w_ba.
Proof.
  apply (delete_undoes_create Scenario.env_quiet Scenario.env_quiet
           Scenario.w_ba Scenario.hello).
  - repeat split; try reflexivity; apply (bool_decide_unpack _); by vm_compute.
  - unfold Logic.delete_succeeds, Spec.delete_plan. repeat constructor.
  - reflexivity.
  - reflexivity.
  - reflexivity.
Defined.

(** ** Delete *)

(** X8.  A delete whose calls all go through removes the id everywhere:
    no document row, no tag row, no index entry and no cache entry
    mention it afterwards; rows and entries of other ids are kept. *)
Theorem delete_removes_everywhere
    (env : Api.Env) (w : Api.World) (doc_id : string) :
  Logic.delete_succeeds env doc_id →
  let out := Api.serve (Api.delete_document doc_id) env w in
  out.2 = Api.Ok (Api.mkSuccess true)
  ∧ Pg.has_document (Api.committed out.1) doc_id = false
  ∧ (doc_id ∉ Pg.doc_id <$> Pg.tags (Api.committed out.1))
  ∧ Chroma.has_id (Api.collection out.1) doc_id = false
  ∧ Api.cache out.1 !! Logic.cache_key doc_id = None
  ∧ (∀ r, Pg.id r ≠ doc_id →
       (r ∈ Pg.documents (Api.committed out.1))
       ↔ (r ∈ Pg.documents (Api.session w)))
  ∧ (∀ e, Chroma.id e ≠ doc_id →
       (e ∈ Api.collection out.1) ↔ (e ∈ Api.collection w)).
Proof.
  intros Hdelete out. subst out.
  rewrite (serve_return env _ _ _ _ (delete_document_stores env _ _ Hdelete)).
  cbn [fst snd Api.committed Api.collection Api.cache]. split_and!.
  - done.
  - apply bool_decide_eq_false_2. cbn.
    intros (r & Hid & [Hne _]%list_elem_of_filter)%list_elem_of_fmap.
    by apply Hne.
  - cbn. intros (r & Hid & [Hne _]%list_elem_of_filter)%list_elem_of_fmap.
    by apply Hne.
  - apply bool_decide_eq_false_2. unfold Chroma.delete.
    intros (e & Hid & [Hne _]%list_elem_of_filter)%list_elem_of_fmap.
    by apply Hne.
  - apply lookup_delete_eq.
  - intros r Hr. cbn. rewrite list_elem_of_filter. tauto.
  - intros e He. unfold Chroma.delete. rewrite list_elem_of_filter. tauto.
Qed.

Lemma delete_removes_everywhere_witness :
  Pg.has_document
    (Api.committed
       (Api.serve (Api.delete_document "a") Scenario.env_quiet
          Scenario.w_ba).1) "a" = false.
Proof.
  apply (delete_removes_everywhere Scenario.env_quiet Scenario.w_ba "a").
  unfold Logic.delete_succeeds, Spec.delete_plan. repeat constructor.
Defined.

(** X9.  Delete is idempotent: a second delete of the same id, again
    with no call raising, answers [success: true] and leaves the stores
    as the first delete left them. *)
Theorem delete_twice_is_delete_once
    (env env' : Api.Env) (w : Api.World) (doc_id : string) :
  Logic.delete_succeeds env doc_id →
  Logic.delete_succeeds env' doc_id →
  let once := Api.serve (Api.delete_document doc_id) env w in
  let twice := Api.serve (Api.delete_document doc_id) env' once.1 in
  Logic.stores twice.1 = Logic.stores once.1
  ∧ twice.2 = Api.Ok (Api.mkSuccess true).
Proof.
  intros Hfirst Hsecond once twice. subst once twice.
  rewrite (serve_return env _ _ _ _ (delete_document_stores env _ _ Hfirst)).
  cbn [fst].
  rewrite (serve_return env' _ _ _ _ (delete_document_stores env' _ _ Hsecond)).
  cbn [fst snd]. split; [|done]. unfold Logic.stores.
  cbn [Api.committed Api.session Api.collection Api.cache].
  assert (Pg.delete_document doc_id
            (Pg.delete_document doc_id (Api.session w))
          = Pg.delete_document doc_id (Api.session w)) as ->.
  { unfold Pg.delete_document. cbn. f_equal;
      apply filter_all, Forall_forall; by intros r [? _]%list_elem_of_filter. }
  assert (Chroma.delete doc_id (Chroma.delete doc_id (Api.collection w))
          = Chroma.delete doc_id (Api.collection w)) as ->.
  { unfold Chroma.delete.
    apply filter_all, Forall_forall; by intros r [? _]%list_elem_of_filter. }
  by rewrite delete_delete_eq.
Qed.

Lemma delete_twice_is_delete_once_witness :
  Logic.stores
    (Api.serve (Api.delete_document "a") Scenario.env_quiet
       (Api.serve (Api.delete_document "a") Scenario.env_quiet
          Scenario.w_ba).1).1
  = Logic.stores
      (Api.serve (Api.delete_document "a") Scenario.env_quiet
         Scenario.w_ba).1.
Proof.
  apply (delete_twice_is_delete_once Scenario.env_quiet Scenario.env_quiet
           Scenario.w_ba "a");
    unfold Logic.delete_succeeds, Spec.delete_plan; repeat constructor.
Defined.

(** X10.  When the index call of a delete raises after the commit, the
    caller gets a 500 although the row and its tags are gone for good;
    the index and the cache keep what they held, so an indexed document
    is left as an index entry without a row. *)
Theorem delete_index_failure_leaves_index_entry
    (env : Api.Env) (w : Api.World) (doc_id msg : string) :
  Api.raises env (Api.PgDeleteDocument doc_id) = None →
  Api.raises env Api.PgCommit = None →
  Api.raises env (Api.ChromaDelete doc_id) = Some msg →
  let out := Api.serve (Api.delete_document doc_id) env w in
  (∃ detail, out.2 = Api.Error 500 detail)
  ∧ Api.committed out.1 = Pg.delete_document doc_id (Api.session w)
  ∧ Pg.has_document (Api.committed out.1) doc_id = false
  ∧ Api.collection out.1 = Api.collection w
  ∧ Api.cache out.1 = Api.cache w.
Proof.
  intros Hpg Hcommit Hchroma out. subst out.
  unfold Api.serve, Api.delete_document, Api.try_except,
    Api.pg_delete_document, Api.pg_commit, Api.chroma_delete,
    Api.pg_rollback, Api.call, Api.modify, Api.raise, mbind, Api.M_bind.
  rewrite Hpg, Hcommit, Hchroma.
  destruct (Api.raises env Api.PgRollback); cbn; (split_and!; eauto);
    apply bool_decide_eq_false_2;
    intros (r & Hid & [Hne _]%list_elem_of_filter)%list_elem_of_fmap;
    by apply Hne.
Qed.

Lemma delete_index_failure_leaves_index_entry_witness :
  Api.collection
    (Api.serve (Api.delete_document "a")
       (Api.mkEnv "u" 0 0 (λ _, []) Scenario.no_reply
          (λ c, match c with
                | Api.ChromaDelete _ => Some "index down"
                | _ => None
                end))
       Scenario.w_ba).1
  = Api.collection Scenario.w_ba.
Proof.
  apply (delete_index_failure_leaves_index_entry _ Scenario.w_ba "a"
           "index down"); reflexivity.
Defined.

(** ** Create, then read *)

Section create_then_read.
Import Api Logic.



End create_then_read.



(** ** Statistics *)

Section stats.
Import Api Logic.

Lemma get_stats_returns env faults w :
  faults Stats.CountDocuments = None →
  faults Stats.CountDistinctTags = None →
  Stats.get_stats faults env w
  = (w, Return (Stats.mkStatsResponse
                  (Stats.count Stats.CountDocuments (session w))
                  (Stats.count Stats.CountDistinctTags (session w)))).
Proof.
  intros Hdocs Htags. unfold Stats.get_stats, Stats.fetch_count, mbind,
    M_bind, mret, M_ret. by rewrite Hdocs, Htags.
Qed.

Lemma count_tags_app (l1 l2 : list string) :
  size (list_to_set l1 : gset string)
  ≤ size (list_to_set (l1 ++ l2) : gset string)
  ∧ size (list_to_set (l1 ++ l2) : gset string)
    ≤ size (list_to_set l1 : gset string) + length l2.
Proof.
  rewrite list_to_set_app_L. split.
  - apply subseteq_size, union_subseteq_l.
  - rewrite size_union_alt.
    assert (size (list_to_set l2 ∖ list_to_set l1 : gset string) ≤ length l2);
      [|lia].
    etrans; [apply subseteq_size, subseteq_difference_l; reflexivity|].
    clear l1. induction l2 as [|x l2 IH]; cbn; [by rewrite size_empty|].
    etrans; [apply (subseteq_size _ _ (reflexivity _))|].
    rewrite size_union_alt, size_singleton.
    assert (size (list_to_set l2 ∖ {[x]} : gset string)
            ≤ size (list_to_set l2 : gset string)); [|lia].
    apply subseteq_size, subseteq_difference_l. reflexivity.
Qed.

Lemma length_filter_split {A} (P : A → Prop) `{∀ x, Decision (P x)} l :
  length (filter P l) + length (filter (λ x, ¬ P x) l) = length l.
Proof. by rewrite <- length_app, filter_app_complement. Qed.

Lemma tags_at_most_five content mime_type :
  length (Annotator.tags
            (Annotator.generate_tags_and_summary content mime_type)) ≤ 5.
Proof.
  unfold Annotator.generate_tags_and_summary.
  destruct (Annotator.is_textual mime_type); cbn [Annotator.tags];
    [|cbn; lia].
  apply or_list_length; [|cbn; lia]. rewrite length_take. lia.
Qed.

End stats.

(** X11.  Statistics follow a create: after a successful create the
    document count is one higher, and the count of distinct tags has not
    dropped and has grown by at most five. *)
Theorem stats_after_create
    (env env' : Api.Env) (w : Api.World) (document : DocumentCreate.t)
    (faults : Stats.Count → option string) :
  Logic.create_succeeds env w document →
  faults Stats.CountDocuments = None →
  faults Stats.CountDistinctTags = None →
  let created := Api.serve (Api.create_document document) env w in
  ∃ before after,
    (Api.serve (Stats.get_stats faults) env' w).2 = Api.Ok before
    ∧ (Api.serve (Stats.get_stats faults) env' created.1).2 = Api.Ok after
    ∧ Stats.documents after = S (Stats.documents before)
    ∧ Stats.tags before ≤ Stats.tags after
    ∧ Stats.tags after ≤ Stats.tags before + 5.
Proof.
  intros Hcreate Hdocs Htags created. subst created.
  rewrite (serve_return env _ _ _ _ (create_document_stores env _ _ Hcreate)).
  cbn [fst].
  rewrite !(serve_return env' _ _ _ _ (get_stats_returns env' _ _ Hdocs Htags)).
  eexists _, _. split; [reflexivity|]. split; [reflexivity|].
  cbn [Stats.documents Stats.tags Stats.count Api.session Api.committed
       Spec.after_commit Pg.documents Pg.tags].
  rewrite length_app, fmap_app. cbn [length]. split; [lia|].
  pose proof (count_tags_app (Pg.tag <$> Pg.tags (Api.session w))
                (Pg.tag <$> (Pg.mkTagRow (Api.uuid4 env) <$>
                   Annotator.tags
                     (Annotator.generate_tags_and_summary
                        (DocumentCreate.content document)
                        (DocumentCreate.mimeType document)))))
    as [Hlow Hhigh].
  rewrite !length_fmap in Hhigh.
  pose proof (tags_at_most_five (DocumentCreate.content document)
                (DocumentCreate.mimeType document)).
  split; [exact Hlow|lia].
Qed.

Lemma stats_after_create_witness :
  ∃ before after,
    (Api.serve (Stats.get_stats (λ _, None)) Scenario.env_quiet
       Scenario.w_ba).2 = Api.Ok before
    ∧ (Api.serve (Stats.get_stats (λ _, None)) Scenario.env_quiet
         (Api.serve (Api.create_document Scenario.hello) Scenario.env_quiet
            Scenario.w_ba).1).2 = Api.Ok after
    ∧ Stats.documents after = S (Stats.documents before).
Proof.
  destruct (stats_after_create Scenario.env_quiet Scenario.env_quiet
              Scenario.w_ba Scenario.hello (λ _, None))
    as (before & after & Hb & Ha & Hdocs & _).
  - repeat split; try reflexivity; apply (bool_decide_unpack _); by vm_compute.
  - reflexivity.
  - reflexivity.
  - exists before, after. split_and!; [exact Hb|exact Ha|exact Hdocs].
Defined.

(** X12.  Statistics follow a delete: after a delete whose calls all go
    through, the document count has dropped by the number of rows the
    DELETE affected, and the count of distinct tags has not grown. *)
Theorem stats_after_delete
    (env env' : Api.Env) (w : Api.World) (doc_id : string)
    (faults : Stats.Count → option string) :
  Logic.delete_succeeds env doc_id →
  faults Stats.CountDocuments = None →
  faults Stats.CountDistinctTags = None →
  let deleted := Api.serve (Api.delete_document doc_id) env w in
  ∃ before after,
    (Api.serve (Stats.get_stats faults) env' w).2 = Api.Ok before
    ∧ (Api.serve (Stats.get_stats faults) env' deleted.1).2 = Api.Ok after
    ∧ Stats.documents after + Pg.rowcount_delete doc_id (Api.session w)
      = Stats.documents before
    ∧ Stats.tags after ≤ Stats.tags before.
Proof.
  intros Hdelete Hdocs Htags deleted. subst deleted.
  rewrite (serve_return env _ _ _ _ (delete_document_stores env _ _ Hdelete)).
  cbn [fst].
  rewrite !(serve_return env' _ _ _ _ (get_stats_returns env' _ _ Hdocs Htags)).
  eexists _, _. split; [reflexivity|]. split; [reflexivity|].
  cbn [Stats.documents Stats.tags Stats.count Api.session Pg.documents
       Pg.tags Pg.delete_document]. unfold Pg.rowcount_delete. split.
  - rewrite Nat.add_comm.
    apply (length_filter_split (λ r, Pg.id r = doc_id)).
  - apply subseteq_size. intros tag.
    rewrite !elem_of_list_to_set, !list_elem_of_fmap.
    intros (r & -> & [_ Hr]%list_elem_of_filter). eauto.
Qed.

Lemma stats_after_delete_witness :
  ∃ before after,
    (Api.serve (Stats.get_stats (λ _, None)) Scenario.env_quiet
       Scenario.w_ba).2 = Api.Ok before
    ∧ (Api.serve (Stats.get_stats (λ _, None)) Scenario.env_quiet
         (Api.serve (Api.delete_document "a") Scenario.env_quiet
            Scenario.w_ba).1).2 = Api.Ok after
    ∧ Stats.documents after + Pg.rowcount_delete "a" Scenario.t_ba
      = Stats.documents before.
Proof.
  destruct (stats_after_delete Scenario.env_quiet Scenario.env_quiet
              Scenario.w_ba "a" (λ _, None))
    as (before & after & Hb & Ha & Hdocs & _).
  - unfold Logic.delete_succeeds, Spec.delete_plan. repeat constructor.
  - reflexivity.
  - reflexivity.
  - exists before, after. split_and!; [exact Hb|exact Ha|exact Hdocs].
Defined.

(** ** More on search *)

Section search_rows.
Import Api Logic.
Context (env : Env).

(** A successful search returns, position by position, the fetched rows
    with the scores of the reply. *)
Lemma search_documents_rows query w docs :
  (serve (search_documents query) env w).2 = Ok docs →
  let reply := Api.query env (collection w) (encode env query) 5 in
  let similarities :=
    (λ distance, 1 - distance)%Q <$> Chroma.distances reply in
  ∀ k d, docs !! k = Some d →
    ∃ j, Pg.select_in (Chroma.ids reply) (session w) !! k = Some j
         ∧ d = Spec.document_of (similarities !! k) j
         ∧ is_Some (similarities !! k).
Proof.
  unfold serve, search_documents, try_except, model_encode, chroma_query,
    pg_select_in, call, raise, ask, get, mbind, M_bind, mret, M_ret.
  destruct (raises env (ModelEncode query)); [done|].
  destruct (raises env ChromaQuery); [done|].
  cbn [collection with_call].
  set (reply := Api.query env (collection w) (encode env query) 5).
  destruct (Chroma.ids reply) as [|i ids] eqn:Hids.
  { intros [= <-] k d. by rewrite lookup_nil. }
  destruct (raises env (PgSelectIn (i :: ids))); [done|].
  cbn [session with_call].
  match goal with
  | |- context [for_enumerate 0 ?l ?f env ?w1] =>
      change f with (Spec.attach ((λ distance, 1 - distance)%Q
                                    <$> Chroma.distances reply));
      destruct (for_enumerate 0 l
                  (Spec.attach ((λ distance, 1 - distance)%Q
                                  <$> Chroma.distances reply)) env w1)
        as [w2 [ds|e]] eqn:Hloop
  end; [|done].
  cbn. intros [= <-] k d Hd.
  by destruct (attach_positions _ _ _ _ _ _ _ Hloop k d Hd)
    as (j & Hj & -> & Hs); eauto.
Qed.


End search_rows.

(** X13.  Whatever the index replies, a successful search returns only
    documents whose id is in the reply and whose row is in the store,
    each with a similarity, and never more documents than the reply
    lists distances. *)
Theorem search_returns_stored_documents
    (env : Api.Env) (w : Api.World) (query : string)
    (docs : list Document.t) :
  (Api.serve (Api.search_documents query) env w).2 = Api.Ok docs →
  let reply :=
    Api.query env (Api.collection w) (Api.encode env query) 5 in
  length docs ≤ length (Chroma.distances reply)
  ∧ Forall (λ d, Document.id d ∈ Chroma.ids reply
                 ∧ Pg.has_document (Api.session w) (Document.id d) = true
                 ∧ is_Some (Document.similarity d)) docs.
Proof.
  intros Hok reply.
  pose proof (search_documents_rows env query w docs Hok) as Hrows.
  cbv zeta in Hrows. fold reply in Hrows. split.
  - destruct (decide (length docs ≤ length (Chroma.distances reply)))
      as [|Hlong]; [done|].
    destruct (lookup_lt_is_Some_2 docs (length (Chroma.distances reply)))
      as [d Hd]; [lia|].
    destruct (Hrows _ _ Hd) as (j & _ & _ & [s Hs]).
    apply lookup_lt_Some in Hs. rewrite length_fmap in Hs. lia.
  - apply Forall_lookup. intros k d Hd.
    destruct (Hrows _ _ Hd) as (j & Hj & -> & Hs).
    apply list_elem_of_lookup_2 in Hj.
    apply elem_of_select_in in Hj as [Hin Hj].
    apply list_elem_of_fmap in Hj as (r & -> & Hr).
    split_and!; [done| |done].
    apply bool_decide_eq_true_2. cbn. apply list_elem_of_fmap. eauto.
Qed.

Lemma search_returns_stored_documents_witness :
  Forall (λ d, Document.id d ∈ ["a"; "b"]
               ∧ Pg.has_document Scenario.t_b (Document.id d) = true
               ∧ is_Some (Document.similarity d))
    [Document.mk "b" "b.txt" "beta" "text/plain" 10 ["beta"] None
       (Some (3 # 4)%Q)].
Proof.
  apply (search_returns_stored_documents Scenario.env_rank_ab
           Scenario.w_b_dangling "q").
  by vm_compute.
Defined.



(** A hit whose row has no timestamp makes the search fail. *)
Example search_undated_is_error :
  snd (Api.serve (Api.search_documents "q") Scenario.env_hit_undated
         Scenario.w_undated)
  = Api.Error 500
      "Search failed: 'NoneType' object has no attribute 'isoformat'".
Proof. by vm_compute. Qed.

(** X15.  When the index finds nothing, the search answers with the
    empty list and does not query the database at all. *)
Theorem search_empty_reply
    (env : Api.Env) (w : Api.World) (query : string) :
  Api.raises env (Api.ModelEncode query) = None →
  Api.raises env Api.ChromaQuery = None →
  Chroma.ids (Api.query env (Api.collection w) (Api.encode env query) 5)
  = [] →
  let out := Api.serve (Api.search_documents query) env w in
  out.2 = Api.Ok []
  ∧ Api.calls out.1 = Api.calls w ++ [Api.ModelEncode query; Api.ChromaQuery].
Proof.
  intros Hmodel Hquery Hids.
  unfold Api.serve, Api.search_documents, Api.try_except, Api.model_encode,
    Api.chroma_query, Api.call, Api.ask, Api.get, mbind, Api.M_bind, mret,
    Api.M_ret.
  rewrite Hmodel, Hquery. cbn [Api.collection Api.with_call]. rewrite Hids.
  cbn. by rewrite <- app_assoc.
Qed.

Lemma search_empty_reply_witness :
  (Api.serve (Api.search_documents "q") Scenario.env_quiet Scenario.w_ba).2
  = Api.Ok [].
Proof.
  apply (search_empty_reply Scenario.env_quiet Scenario.w_ba "q");
    reflexivity.
Defined.

(** X16.  A search answers with a list of documents or with status 500
    and a detail that starts with [Search failed: ]; no other status
    ever leaves this handler. *)
Theorem search_answers_list_or_500
    (env : Api.Env) (w : Api.World) (query : string) :
  (∃ docs, (Api.serve (Api.search_documents query) env w).2 = Api.Ok docs)
  ∨ (∃ msg, (Api.serve (Api.search_documents query) env w).2
            = Api.Error 500 ("Search failed: " +:+ msg)).
Proof.
  unfold Api.serve, Api.search_documents, Api.try_except, Api.raise.
  match goal with
  | |- context [match ?body env w with _ => _ end] =>
      destruct (body env w) as [w1 [docs|e]]
  end; cbn; eauto.
Qed.

(** ** More on the annotator *)

Section annotator_more.
Import Annotator Logic.

Lemma chars_of_list l : chars (string_of_list_ascii l) = l.
Proof. apply list_ascii_of_string_of_list_ascii. Qed.

Lemma of_list_chars s : string_of_list_ascii (chars s) = s.
Proof. apply string_of_list_ascii_of_string. Qed.

Lemma chars_map_chars f s : chars (Py.map_chars f s) = f <$> chars s.
Proof.
  unfold chars. induction s as [|c s IH]; cbn; [done|]. by rewrite IH.
Qed.

(** *** [split()] *)

Lemma flush_words word w :
  w ∈ Py.flush word →
  Forall (λ c, Py.isspace c = false) word →
  w ≠ "" ∧ Forall (λ c, Py.isspace c = false) (chars w)
  ∧ ∀ c, c ∈ chars w → c ∈ word.
Proof.
  destruct word as [|c0 word]; [by intros ?%elem_of_nil|].
  intros ->%list_elem_of_singleton Hword. rewrite chars_of_list. split_and!.
  - intros Heq. apply (f_equal chars) in Heq. rewrite chars_of_list in Heq.
    apply (f_equal length) in Heq. by rewrite length_reverse in Heq.
  - by apply Forall_reverse.
  - intros c Hc. by apply elem_of_reverse.
Qed.

Lemma split_ws_from_words word s w :
  w ∈ Py.split_ws_from word s →
  Forall (λ c, Py.isspace c = false) word →
  w ≠ ""
  ∧ Forall (λ c, Py.isspace c = false) (chars w)
  ∧ ∀ c, c ∈ chars w → c ∈ word ∨ c ∈ chars s.
Proof.
  revert word. induction s as [|c s IH]; intros word; cbn [Py.split_ws_from].
  - intros Hw Hword. destruct (flush_words word w Hw Hword) as (? & ? & Hsub).
    split_and!; [done|done|]. intros c Hc. left. by apply Hsub.
  - destruct (Py.isspace c) eqn:Hspace.
    + rewrite elem_of_app. intros [Hw|Hw] Hword.
      * destruct (flush_words word w Hw Hword) as (? & ? & Hsub).
        split_and!; [done|done|]. intros c' Hc'. left. by apply Hsub.
      * destruct (IH [] Hw) as (Hne & Hns & Hsub); [done|].
        split_and!; [done|done|]. intros c' Hc'.
        destruct (Hsub c' Hc') as [?%elem_of_nil|?]; [done|].
        right. unfold chars. cbn. by right.
    + intros Hw Hword.
      destruct (IH (c :: word) Hw) as (Hne & Hns & Hsub); [by constructor|].
      split_and!; [done|done|]. intros c' Hc'. unfold chars. cbn.
      destruct (Hsub c' Hc') as [Hin|?]; [|right; by right].
      apply elem_of_cons in Hin as [->|?]; [right; left|by left].
Qed.

Lemma split_words s w :
  w ∈ Py.split s →
  w ≠ ""
  ∧ Forall (λ c, Py.isspace c = false) (chars w)
  ∧ ∀ c, c ∈ chars w → c ∈ chars s.
Proof.
  intros Hw. destruct (split_ws_from_words [] s w Hw) as (Hne & Hns & Hsub);
    [done|].
  split_and!; [done|done|]. intros c Hc.
  by destruct (Hsub c Hc) as [?%elem_of_nil|?].
Qed.

Lemma lower_char_not_upper c : Py.between 65 90 (Py.lower_char c) = false.
Proof. by destruct c as [[] [] [] [] [] [] [] []]. Qed.

Lemma upper_char_slash c : Py.upper_char c = "/"%char → c = "/"%char.
Proof. by destruct c as [[] [] [] [] [] [] [] []]. Qed.

(** *** [split("/")[-1]] *)

Lemma split_on_from_nonempty sep field s : Py.split_on_from sep field s ≠ [].
Proof.
  revert field. induction s as [|c s IH]; intros field; cbn; [done|].
  by destruct (Ascii.eqb c sep).
Qed.

Lemma split_on_from_fields sep field s :
  sep ∉ field →
  Forall (λ f, sep ∉ chars f) (Py.split_on_from sep field s).
Proof.
  revert field. induction s as [|c s IH]; intros field Hfield; cbn.
  - constructor; [|done]. by rewrite chars_of_list, elem_of_reverse.
  - destruct (Ascii.eqb_spec c sep) as [->|Hc].
    + constructor; [by rewrite chars_of_list, elem_of_reverse|].
      apply IH, not_elem_of_nil.
    + apply IH. rewrite elem_of_cons. intros [->|?]; done.
Qed.

Lemma split_on_from_no_sep sep field s :
  sep ∉ chars s →
  Py.split_on_from sep field s
  = [string_of_list_ascii (reverse field ++ chars s)].
Proof.
  revert field. induction s as [|c s IH]; intros field; unfold chars; cbn.
  - by rewrite app_nil_r.
  - rewrite not_elem_of_cons. intros [Hc Hs].
    destruct (Ascii.eqb_spec c sep) as [->|_]; [done|].
    rewrite (IH (c :: field) Hs), reverse_cons, <- app_assoc. done.
Qed.

Lemma append_cons c s1 s2 : String c s1 +:+ s2 = String c (s1 +:+ s2).
Proof. done. Qed.

Lemma last_split_on_from_app sep field before suffix :
  last (Py.split_on_from sep field (before +:+ String sep suffix))
  = last (Py.split_on_from sep [] suffix).
Proof.
  revert field. induction before as [|c before IH]; intros field.
  - change ("" +:+ String sep suffix) with (String sep suffix).
    cbn [Py.split_on_from]. rewrite Ascii.eqb_refl, last_cons.
    destruct (last_is_Some (Py.split_on_from sep [] suffix)) as [_ Hsome].
    by destruct (Hsome (split_on_from_nonempty _ _ _)) as [x ->].
  - rewrite append_cons. cbn [Py.split_on_from].
    destruct (Ascii.eqb c sep); [|apply IH].
    rewrite last_cons, IH.
    destruct (last_is_Some (Py.split_on_from sep [] suffix)) as [_ Hsome].
    by destruct (Hsome (split_on_from_nonempty _ _ _)) as [x ->].
Qed.

End annotator_more.

(** X17.  For a media type that is not textual the first tag, the file
    type, is the upper-cased part of the media type after its last slash
    (the whole media type when it has none); it contains neither a slash
    nor any of the ASCII lower-case letters a to z, and the other two
    tags are fixed. *)
Theorem file_type_is_upper_suffix (content mime_type : string) :
  let file_type := Annotator.file_type_of mime_type in
  Forall (λ c, c ≠ "/"%char ∧ Py.between 97 122 c = false)
    (Logic.chars file_type)
  ∧ (("/"%char ∉ Logic.chars mime_type) → file_type = Py.upper mime_type)
  ∧ (∀ before suffix,
       mime_type = before +:+ String "/" suffix →
       ("/"%char ∉ Logic.chars suffix) →
       file_type = Py.upper suffix)
  ∧ (Annotator.is_textual mime_type = false →
     Annotator.generate_tags_and_summary content mime_type
     = Annotator.mkAiData [file_type; "media"; "file"]
         (file_type +:+ " file uploaded to OmniMind")).
Proof.
  intros file_type. subst file_type. unfold Annotator.file_type_of,
    Py.last_item, Py.split_on. split_and!.
  - unfold Py.upper. rewrite chars_map_chars. apply Forall_fmap.
    destruct (last _) as [x|] eqn:Hlast; [|by constructor].
    apply last_Some_elem_of in Hlast.
    pose proof (split_on_from_fields "/" [] mime_type (not_elem_of_nil _))
      as Hfields.
    rewrite Forall_forall in Hfields. specialize (Hfields x Hlast).
    apply Forall_forall. intros c Hc. cbn. split.
    + intros Hslash%upper_char_slash. by subst c.
    + apply upper_char_not_lower.
  - intros Hno. rewrite split_on_from_no_sep by done. cbn.
    by rewrite of_list_chars.
  - intros before suffix -> Hno.
    rewrite last_split_on_from_app, split_on_from_no_sep by done. cbn.
    by rewrite of_list_chars.
  - unfold Annotator.generate_tags_and_summary. by intros ->.
Qed.

Lemma file_type_is_upper_suffix_witness :
  "image/svg+xml" = "image" +:+ String "/" "svg+xml"
  ∧ ("/"%char ∉ Logic.chars "svg+xml")
  ∧ Annotator.file_type_of "image/svg+xml" = Py.upper "svg+xml".
Proof.
  split; [reflexivity|].
  split; [apply (bool_decide_unpack _); by vm_compute|].
  destruct (file_type_is_upper_suffix "" "image/svg+xml")
    as (_ & _ & Hsuffix & _).
  apply (Hsuffix "image" "svg+xml"); [reflexivity|].
  apply (bool_decide_unpack _). by vm_compute.
Defined.

(** X18.  For a textual media type the tags are either the three default
    tags or keywords of the content: words of the lower-cased content,
    longer than three characters, not stop words, and free of ASCII
    whitespace and of the ASCII upper-case letters A to Z. *)
Theorem textual_tags_are_keywords (content mime_type : string) :
  Annotator.is_textual mime_type = true →
  let tags :=
    Annotator.tags (Annotator.generate_tags_and_summary content mime_type) in
  tags = ["document"; "text"; "file"]
  ∨ Forall (λ tag, (tag ∈ Py.split (Py.lower content))
                   ∧ 3 < Py.len tag
                   ∧ (tag ∉ Annotator.common_words)
                   ∧ Forall Logic.plain_char (Logic.chars tag)) tags.
Proof.
  intros Htext tags. subst tags.
  unfold Annotator.generate_tags_and_summary. rewrite Htext.
  cbn [Annotator.tags].
  destruct (take 5 (Py.list_of_set _)) as [|tag0 rest] eqn:Htake; [by left|].
  right. cbn [Py.or_list]. rewrite <- Htake. apply Forall_forall.
  intros tag Htag.
  pose proof (elem_of_sublist _ _ _ Htag (sublist_take _ _)) as Hset.
  unfold Py.list_of_set in Hset.
  apply elem_of_elements, elem_of_list_to_set in Hset.
  unfold Annotator.keywords_of in Hset.
  pose proof (elem_of_sublist _ _ _ Hset (sublist_take _ _)) as Hkw.
  apply list_elem_of_In, List.filter_In in Hkw as [Hin Hkeep].
  apply list_elem_of_In in Hin.
  pose proof (elem_of_sublist _ _ _ Hin (sublist_take _ _)) as Hword.
  apply andb_true_iff in Hkeep as [Hcommon Hlen].
  destruct (split_words _ _ Hword) as (_ & Hspace & Hchars).
  split_and!.
  - done.
  - by apply Nat.ltb_lt.
  - apply negb_true_iff in Hcommon. unfold Annotator.is_common in Hcommon.
    by apply bool_decide_eq_false_1 in Hcommon.
  - apply Forall_forall. intros c Hc. split.
    + rewrite Forall_forall in Hspace. by apply Hspace.
    + specialize (Hchars c Hc). unfold Py.lower in Hchars.
      rewrite chars_map_chars in Hchars.
      apply list_elem_of_fmap in Hchars as (c' & -> & _).
      apply lower_char_not_upper.
Qed.

Lemma textual_tags_are_keywords_witness :
  Annotator.tags
    (Annotator.generate_tags_and_summary "The Quick brown fox" "text/plain")
  = ["document"; "text"; "file"]
  ∨ Forall (λ tag, (tag ∈ Py.split (Py.lower "The Quick brown fox"))
                   ∧ 3 < Py.len tag
                   ∧ (tag ∉ Annotator.common_words)
                   ∧ Forall Logic.plain_char (Logic.chars tag))
      (Annotator.tags
         (Annotator.generate_tags_and_summary "The Quick brown fox"
            "text/plain")).
Proof.
  apply (textual_tags_are_keywords "The Quick brown fox" "text/plain").
  reflexivity.
Defined.

(** X19.  A JSON document is annotated as text but embedded by its
    summary: the text handed to the model is the content when it has at
    most 200 characters and otherwise its first 200 characters followed
    by three dots, so never more than 203 characters. *)
Theorem json_is_embedded_by_summary (document : DocumentCreate.t) :
  DocumentCreate.mimeType document = "application/json" →
  let content := DocumentCreate.content document in
  let text := Spec.text_to_embed document in
  (Py.len content ≤ 200 → text = content)
  ∧ (200 < Py.len content → text = Py.slice_to 200 content +:+ "...")
  ∧ Py.len text ≤ 203.
Proof.
  intros Hmime content text. subst content text.
  unfold Spec.text_to_embed, Annotator.generate_tags_and_summary.
  rewrite Hmime.
  change (Py.startswith "application/json" "text/") with false.
  change (Annotator.is_textual "application/json") with true.
  cbn [Annotator.summary]. apply text_summary.
Qed.

Lemma json_is_embedded_by_summary_witness :
  Py.len "{}" ≤ 200
  ∧ Spec.text_to_embed (DocumentCreate.mk "a.json" "{}" "application/json")
    = "{}".
Proof.
  split; [vm_compute; lia|].
  apply (json_is_embedded_by_summary
           (DocumentCreate.mk "a.json" "{}" "application/json") eq_refl).
  vm_compute. lia.
Defined.

(** X20.  The tags the annotator returns are pairwise distinct for every
    input, so the tag inserts of one create never meet
    UNIQUE(doc_id, tag). *)
Theorem annotator_tags_distinct (content mime_type : string) :
  NoDup (Annotator.tags
           (Annotator.generate_tags_and_summary content mime_type)).
Proof. apply tags_NoDup. Qed.

(** ** The transaction is always closed *)

Section settled.
Import Api Logic.
Context (env : Env).

Lemma blind_settled : blind settled.
Proof. by intros c w. Qed.

(** Whatever comes first, only the last steps decide in which world a
    block returns. *)
Lemma returns_bind {A B} P (m : M A) (k : A → M B) (Q : World → Prop) :
  (∀ a, triple env (λ _, True) (k a) (on_return Q)) →
  triple env P (m ≫= k) (on_return Q).
Proof.
  intros Hk w _. rewrite run_bind.
  destruct (m env w) as [w1 [a|e]]; cbn; [by apply Hk|done].
Qed.

Lemma returns_commit {B} (k : M B) :
  keeps env settled k →
  triple env (λ _, True) (pg_commit ;; k) (on_return settled).
Proof.
  intros Hk w _. unfold pg_commit, call, modify. rewrite !run_bind.
  destruct (raises env PgCommit); cbn; [done|].
  intros a _. by apply Hk.
Qed.

Lemma keeps_settled_outside (c : Call) (f : World → World) :
  (∀ w, committed (f w) = committed w ∧ session (f w) = session w) →
  keeps env settled (call c ;; modify f).
Proof.
  intros Hf. apply keeps_bind; [apply keeps_call, blind_settled|].
  intros _. apply keeps_modify. intros w Hw. unfold settled.
  destruct (Hf w) as [-> ->]. done.
Qed.

(** The except clause of the writers closes the transaction. *)
Lemma settled_try {A} (body : M A) (detail : Exc → string) w :
  raises env PgRollback = None →
  triple env (λ _, True) body (on_return settled) →
  settled
    (try_except body
       (λ e, pg_rollback ;; raise (HTTPException 500 (detail e))) env w).1.
Proof.
  intros Hrollback Hbody. specialize (Hbody w I). unfold try_except.
  destruct (body env w) as [w1 [a|e]]; cbn in *; [by eapply Hbody|].
  unfold pg_rollback, call, modify, raise, mbind, M_bind.
  by rewrite Hrollback.
Qed.

End settled.

(** X21.  When the rollback itself does not raise, a create or a delete
    never leaves an uncommitted change on the shared connection: in the
    final world the connection's view is the committed tables, whatever
    else raised and whatever the view was before. *)
Theorem writers_close_the_transaction
    (env : Api.Env) (w : Api.World) (document : DocumentCreate.t)
    (doc_id : string) :
  Api.raises env Api.PgRollback = None →
  Logic.settled (Api.serve (Api.create_document document) env w).1
  ∧ Logic.settled (Api.serve (Api.delete_document doc_id) env w).1.
Proof.
  intros Hrollback. rewrite !serve_world. split.
  - unfold Api.create_document. rewrite run_bind, run_ask.
    cbn beta iota zeta. apply settled_try; [done|].
    apply returns_bind. intros _. apply returns_bind. intros _.
    apply returns_commit.
    apply keeps_bind.
    { apply keeps_bind; [apply keeps_call, blind_settled|]. intros _.
      apply keeps_bind; [apply keeps_ask|]. intros ?. apply keeps_ret. }
    intros embedding.
    apply keeps_bind; [by apply keeps_settled_outside|]. intros _.
    apply keeps_bind; [by apply keeps_settled_outside|]. intros _.
    apply keeps_ret.
  - unfold Api.delete_document. apply settled_try; [done|].
    apply returns_bind. intros _. apply returns_commit.
    apply keeps_bind; [by apply keeps_settled_outside|]. intros _.
    apply keeps_bind; [by apply keeps_settled_outside|]. intros _.
    apply keeps_ret.
Qed.

Lemma writers_close_the_transaction_witness :
  Logic.settled
    (Api.serve (Api.create_document Scenario.hello) Scenario.env_index_down
       Scenario.w_ba).1
  ∧ Logic.settled
      (Api.serve (Api.delete_document "a") Scenario.env_index_down
         Scenario.w_ba).1.
Proof.
  apply (writers_close_the_transaction Scenario.env_index_down Scenario.w_ba
           Scenario.hello "a").
  reflexivity.
Defined.

(** When the rollback raises too, the uncommitted row stays in the
    connection's view and the next listing shows it. *)
Example failed_rollback_leaves_row_visible :
  let env := Api.mkEnv "u" 40 41 (λ _, []) Scenario.no_reply
               (λ c, match c with
                     | Api.PgCommit => Some "commit failed"
                     | Api.PgRollback => Some "connection lost"
                     | _ => None
                     end) in
  let out := Api.serve (Api.create_document Scenario.hello) env
               Scenario.w_empty in
  out.2 = Api.Error 500 "Internal Server Error"
  ∧ Pg.has_document (Api.committed out.1) "u" = false
  ∧ Document.id
      <$> match (Api.serve Api.get_documents Scenario.env_quiet out.1).2 with
          | Api.Ok docs => docs
          | Api.Error _ _ => []
          end
    = ["u"].
Proof. by vm_compute. Qed.

(** ** What a create answers *)

Section create_answers.
Import Api Logic.
Context (env : Env).

Lemma bind_returns {A B} (m : M A) (k : A → M B) w w' b :
  (m ≫= k) env w = (w', Return b) →
  ∃ a w1, m env w = (w1, Return a) ∧ k a env w1 = (w', Return b).
Proof.
  rewrite run_bind. destruct (m env w) as [w1 [a|e]]; [eauto|done].
Qed.

Lemma create_document_returns_created document w w' d :
  create_document document env w = (w', Return d) →
  d = Spec.created env document.
Proof.
  unfold create_document. rewrite run_bind, run_ask. cbn beta iota zeta.
  unfold try_except.
  match goal with
  | |- context [match ?body env w with _ => _ end] =>
      destruct (body env w) as [w1 [a|e]] eqn:Hbody
  end.
  - intros [= <- <-].
    apply bind_returns in Hbody as (? & ? & _ & Hbody).
    apply bind_returns in Hbody as (? & ? & _ & Hbody).
    apply bind_returns in Hbody as (? & ? & _ & Hbody).
    apply bind_returns in Hbody as (? & ? & _ & Hbody).
    apply bind_returns in Hbody as (? & ? & _ & Hbody).
    apply bind_returns in Hbody as (? & ? & _ & Hbody).
    by injection Hbody as _ <-.
  - unfold pg_rollback, call, modify, raise, mbind, M_bind.
    by destruct (raises env PgRollback).
Qed.

End create_answers.

(** X22.  A create answers with the document built from the request, the
    annotator, the generated id and the clock, or with status 500; no
    other status and no other body ever leaves this handler. *)
Theorem create_answers_created_or_500
    (env : Api.Env) (w : Api.World) (document : DocumentCreate.t) :
  (Api.serve (Api.create_document document) env w).2
  = Api.Ok (Spec.created env document)
  ∨ ∃ detail,
      (Api.serve (Api.create_document document) env w).2
      = Api.Error 500 detail.
Proof.
  unfold Api.serve.
  destruct (Api.create_document document env w) as [w' [d|e]] eqn:Hrun.
  - left. cbn. f_equal. by eapply create_document_returns_created.
  - right. revert Hrun. unfold Api.create_document.
    rewrite run_bind, run_ask. cbn beta iota zeta. unfold Api.try_except.
    match goal with
    | |- context [match ?body env w with _ => _ end] =>
        destruct (body env w) as [w1 [a|e1]]
    end; [done|].
    unfold Api.pg_rollback, Api.call, Api.modify, Api.raise, mbind,
      Api.M_bind.
    destruct (Api.raises env Api.PgRollback); intros [= <- <-]; cbn; eauto.
Qed.
